(** * Key-range paging engine (Dexie.js, L3-keyrange-paging)

    A shallow embedding of
    [src/classes/core/L3-keyrange-paging/keyrange-paging-engine.ts]
    and the properties of its [queryRange] operation.

    Promises are modelled by their resolved value together with the log
    of the calls made on the layer below while computing it; [.then]
    is the bind of that monad.  The engine raises no error of its own,
    and a failure of the layer below is outside this model. *)

From Stdlib Require Import List ZArith Bool String Lia PeanoNat.
Import ListNotations.

Set Implicit Arguments.

(** ** Data model *)

Section DataModel.

(** The engine never looks inside keys or records: it hands them to the
    comparator and to the [extractKey] functions of the layer below. *)
Variables Key Value Transaction : Type.

(** The JavaScript values that flow through the engine ([any], [Key]). *)
Inductive any : Type :=
| undefined
| null
| JsKey (k : Key)
| JsRecord (v : Value).

(** [x == null] in JavaScript: true of [null] and [undefined] only. *)
Definition nullish (x : any) : bool :=
  match x with
  | undefined | null => true
  | _ => false
  end.

(** [KeyRange]; an absent bound is [undefined]. *)
Record KeyRange : Type := {
  lower : any;
  lowerOpen : bool;
  upper : any;
  upperOpen : bool
}.

(** What a cursor exposes at one position: [cursor.key],
    [cursor.primaryKey], [cursor.value]. *)
Record CursorEntry : Type := {
  key : any;
  primaryKey : any;
  value : any
}.

(** Modelled from the spec: the [Cursor] of L1-dbcore (section 6 and the
    data model of section 3).  A cursor of the layer below is the
    sequence of entries it has not yet handed to a callback, in
    iteration order, together with its direction. *)
Record DBCoreCursor : Type := {
  pending : list CursorEntry;
  descending : bool
}.

(** The cursor objects the engine handles: a cursor of the layer below,
    the [OffsetCursor] decorator (which is applied to whatever
    [openCursor] answered, a cursor or [null]), and the object built by
    [Object.create(cursor, {start: ...})] in the engine's [openCursor]. *)
Inductive Cursor : Type :=
| DBCursor (c : DBCoreCursor)
| OffsetCursor (inner : option DBCoreCursor) (offset : nat)
| SeekCursor (proto : DBCoreCursor) (lastKey lastPrimaryKey : any).

(** Modelled from the spec: [KeyRangePageToken] of [./pagetoken]
    (section 3): a tagged union of three variants.  A [cursor] token may
    hold [null] when the range was empty. *)
Inductive KeyRangePageToken : Type :=
| CursorToken (cursor : option Cursor)
| OffsetToken (offset : nat)
| LastKeyToken (lastKey lastPrimaryKey : any).

(** [pageToken.type !== 'lastKey'] *)
Definition isLastKeyToken (t : KeyRangePageToken) : bool :=
  match t with
  | LastKeyToken _ _ => true
  | _ => false
  end.

Definition isCursorToken (t : KeyRangePageToken) : bool :=
  match t with
  | CursorToken _ => true
  | _ => false
  end.

(** [const {lastKey, lastPrimaryKey} = pageToken]: a field the token
    does not have reads as [undefined]. *)
Definition tokenLastKey (t : KeyRangePageToken) : any :=
  match t with
  | LastKeyToken lastKey _ => lastKey
  | _ => undefined
  end.

Definition tokenLastPrimaryKey (t : KeyRangePageToken) : any :=
  match t with
  | LastKeyToken _ lastPrimaryKey => lastPrimaryKey
  | _ => undefined
  end.

(** [PagableKeyRangeQuery].  An absent flag is [false], an absent token
    is [None]; [limit] counts entries. *)
Record PagableKeyRangeQuery : Type := {
  trans : Transaction;
  table : string;
  index : string;
  range : KeyRange;
  values : bool;
  limit : nat;
  unique : bool;
  reverse : bool;
  wantPageToken : bool;
  pageToken : option KeyRangePageToken
}.

(** [{...query, range: r}] *)
Definition withRange (query : PagableKeyRangeQuery) (r : KeyRange)
  : PagableKeyRangeQuery :=
  {| trans := trans query; table := table query; index := index query;
     range := r; values := values query; limit := limit query;
     unique := unique query; reverse := reverse query;
     wantPageToken := wantPageToken query; pageToken := pageToken query |}.

(** The caller's follow-up query: the same query with the token of the
    previous response. *)
Definition withPageToken (query : PagableKeyRangeQuery)
           (t : option KeyRangePageToken) : PagableKeyRangeQuery :=
  {| trans := trans query; table := table query; index := index query;
     range := range query; values := values query; limit := limit query;
     unique := unique query; reverse := reverse query;
     wantPageToken := wantPageToken query; pageToken := t |}.

(** [QueryRangeResponse]; [resPageToken] is its [pageToken] field. *)
Record QueryRangeResponse : Type := {
  result : list any;
  resPageToken : option KeyRangePageToken;
  partial : bool
}.

(** Index metadata ([idx.index], [idx.keyLength], [idx.extractKey]);
    [isUnique] is the [unique] attribute of the index. *)
Record DBCoreIndex : Type := {
  multiEntry : bool;
  isUnique : bool;
  isPrimaryKey : bool
}.

Record VirtualIndex : Type := {
  dbIndex : DBCoreIndex;
  keyLength : nat;
  extractKey : any -> any
}.

(** The operations of the layer below that the engine uses.
    [tableIndexLookup t i] is [next.tableIndexLookup[t][i][0]]. *)
Record VirtualIndexCore : Type := {
  cmp : any -> any -> Z;
  getAll : PagableKeyRangeQuery -> list any;
  openCursor : PagableKeyRangeQuery -> option DBCoreCursor;
  get : Transaction -> string -> list any -> list any;
  tableIndexLookup : string -> string -> VirtualIndex
}.

(** ** Promises and the log of calls *)

Inductive Call : Type :=
| CallOpenCursor (query : PagableKeyRangeQuery)
| CallGetAll (query : PagableKeyRangeQuery)
| CallGet (t : Transaction) (tbl : string) (keys : list any)
| CallStart (seek : option (any * any)).

Definition Promise (A : Type) : Type := (list Call * A)%type.

Definition resolve {A} (a : A) : Promise A := ([], a).

Definition andThen {A B} (p : Promise A) (f : A -> Promise B) : Promise B :=
  let (l1, a) := p in
  let (l2, b) := f a in
  (l1 ++ l2, b).

Definition calls {A} (p : Promise A) : list Call := fst p.
Definition resolved {A} (p : Promise A) : A := snd p.

Definition isGetAll (c : Call) : bool :=
  match c with
  | CallGetAll _ => true
  | _ => false
  end.

Definition isStart (c : Call) : bool :=
  match c with
  | CallStart _ => true
  | _ => false
  end.

(** A call that reads or consumes entries of the store; opening a
    cursor only positions it. *)
Definition readsEntries (c : Call) : bool :=
  match c with
  | CallOpenCursor _ => false
  | _ => true
  end.

End DataModel.

Arguments undefined {Key Value}.
Arguments null {Key Value}.
Arguments JsKey {Key Value} k.
Arguments JsRecord {Key Value} v.
Arguments resolve {Key Value Transaction A} a.
Arguments CallStart {Key Value Transaction} seek.
Arguments OffsetToken {Key Value} offset.

Declare Scope promise_scope.
Delimit Scope promise_scope with promise.
Notation "x <- p ;; k" := (andThen p (fun x => k))
  (at level 61, p at next level, right associativity) : promise_scope.
Notation "' pat <- p ;; k" := (andThen p (fun x => match x with pat => k end))
  (at level 61, pat pattern, p at next level, right associativity) : promise_scope.

(** ** The engine *)

Module Engine.
Section Engine.

Context {Key Value Transaction : Type}.
Abbreviation any := (any Key Value).
Abbreviation CursorEntry := (CursorEntry Key Value).
Abbreviation DBCoreCursor := (DBCoreCursor Key Value).
Abbreviation Cursor := (Cursor Key Value).
Abbreviation Query := (PagableKeyRangeQuery Key Value Transaction).
Abbreviation Response := (QueryRangeResponse Key Value).
Abbreviation Promise := (Promise Key Value Transaction).

(** [KeyRangePagingEngine(next)] *)
Variable next : VirtualIndexCore Key Value Transaction.

Local Open Scope promise_scope.

(** Calls on the layer below, logged. *)
Definition next_openCursor (query : Query) : Promise (option DBCoreCursor) :=
  ([CallOpenCursor query], openCursor next query).

Definition next_getAll (query : Query) : Promise (list any) :=
  ([CallGetAll query], getAll next query).

Definition next_get (t : Transaction) (tbl : string) (keys : list any)
  : Promise (list any) :=
  ([CallGet t tbl keys], get next t tbl keys).

(** *** Cursor iteration *)

(** What a callback does before it returns: [cursor.continue()] or
    [cursor.stop(r)]. *)
Inductive Action (R : Type) : Type :=
| Continue
| Stop (r : R).
Arguments Continue {R}.

(** Modelled from the spec: [cursor.start(callback)] of L1-dbcore
    (section 6): the callback is invoked per entry until it stops the
    cursor, and the promise resolves with the value given to [stop], or
    with [undefined] ([None]) when the entries run out.  The callback's
    closure state (the [result] array) is threaded as [s].  The entries
    left over are those not yet handed to the callback: a token's
    cursor resumes with the entry after the one it stopped on. *)
Fixpoint iterate {S R} (callback : CursorEntry -> S -> S * Action R)
         (entries : list CursorEntry) (s : S)
  : list CursorEntry * S * option R :=
  match entries with
  | [] => ([], s, None)
  | e :: rest =>
      match callback e s with
      | (s', Stop r) => (rest, s', Some r)
      | (s', Continue) => iterate callback rest s'
      end
  end.

(** Modelled from the spec: [cursor.start(callback, key, primaryKey)]
    (section 4.2): the cursor first seeks to the compound position
    (key, primaryKey), in its direction and by the store's comparator. *)
Definition reached (desc : bool) (k pk : any) (e : CursorEntry) : bool :=
  let c := cmp next (key e) k in
  if desc
  then (c <? 0)%Z || ((c =? 0)%Z && (cmp next (primaryKey e) pk <=? 0)%Z)
  else (c >? 0)%Z || ((c =? 0)%Z && (cmp next (primaryKey e) pk >=? 0)%Z).

(** Modelled from the spec: the search for the compound position among
    the entries still to come; the entries before it are skipped. *)
Fixpoint seekTo (desc : bool) (k pk : any) (entries : list CursorEntry)
  : list CursorEntry :=
  match entries with
  | [] => []
  | e :: rest => if reached desc k pk e then entries else seekTo desc k pk rest
  end.

(** Modelled from the spec: [start] of a cursor of the layer below
    (section 6), with the position to seek to first when one is given. *)
Definition dbStart {S R} (c : DBCoreCursor)
           (callback : CursorEntry -> S -> S * Action R) (s : S)
           (seek : option (any * any))
  : Promise (DBCoreCursor * S * option R) :=
  let entries :=
    match seek with
    | None => pending c
    | Some (k, pk) => seekTo (descending c) k pk (pending c)
    end in
  let '(rest, s', r) := iterate callback entries s in
  ([CallStart seek], ({| pending := rest; descending := descending c |}, s', r)).

(** Modelled from the spec: [start] of the [OffsetCursor] decorator of
    [L1-dbcore/utils/offset-cursor] (section 4.5): the first [start]
    discards [offset] entries before the first callback fires, and
    nothing is skipped afterwards.  Around no cursor there is no entry to
    hand out. *)
Definition offsetStart {S R} (inner : option DBCoreCursor) (offset : nat)
           (callback : CursorEntry -> S -> S * Action R) (s : S)
  : Promise (Cursor * S * option R) :=
  match inner with
  | None => resolve (OffsetCursor None 0, s, None)
  | Some c =>
      '(c', s', r) <- dbStart {| pending := skipn offset (pending c);
                                 descending := descending c |}
                              callback s None ;;
      resolve (OffsetCursor (Some c') 0, s', r)
  end.

(** The [start] of the object built on lines 77-83:
    [cursor.start(() => cursor.stop(), lastKey, lastPrimaryKey)
       .then(() => cursor.start(onNext))]. *)
Definition seekStart {S R} (cursor : DBCoreCursor) (lastKey lastPrimaryKey : any)
           (onNext : CursorEntry -> S -> S * Action R) (s : S)
  : Promise (Cursor * S * option R) :=
  '(cursor, _, _) <- dbStart cursor (fun _ (_ : unit) => (tt, Stop tt)) tt
                             (Some (lastKey, lastPrimaryKey)) ;;
  '(cursor, s', r) <- dbStart cursor onNext s None ;;
  resolve (SeekCursor cursor lastKey lastPrimaryKey, s', r).

(** [cursor.start(callback)] on each of the cursor objects. *)
Definition start {S R} (cursor : Cursor)
           (callback : CursorEntry -> S -> S * Action R) (s : S)
  : Promise (Cursor * S * option R) :=
  match cursor with
  | DBCursor c =>
      '(c', s', r) <- dbStart c callback s None ;;
      resolve (DBCursor c', s', r)
  | OffsetCursor inner offset => offsetStart inner offset callback s
  | SeekCursor c lastKey lastPrimaryKey =>
      seekStart c lastKey lastPrimaryKey callback s
  end.

(** *** [openCursor] (lines 47-84) *)

Definition openCursor (query : Query) : Promise (option Cursor) :=
  match pageToken query with
  | None =>
      (* We don't have a pageToken. Call openCursor(): *)
      cursor <- next_openCursor query ;;
      resolve (option_map (@DBCursor _ _) cursor)
  | Some (CursorToken cursor) =>
      resolve cursor
  | Some (OffsetToken offset) =>
      cursor <- next_openCursor query ;;
      resolve (Some (OffsetCursor cursor offset))
  | Some (LastKeyToken lastKey lastPrimaryKey) =>
      (* Adjust range: *)
      let query :=
        withRange query
          (if reverse query
           then {| lower := lower (range query);
                   lowerOpen := lowerOpen (range query);
                   upper := lastKey; upperOpen := false |}
           else {| lower := lastKey; lowerOpen := false;
                   upper := upper (range query);
                   upperOpen := upperOpen (range query) |}) in
      let cursorPromise := next_openCursor query in
      if nullish lastPrimaryKey
      then cursor <- cursorPromise ;;
           resolve (option_map (@DBCursor _ _) cursor)
      else cursor <- cursorPromise ;;
           resolve (option_map
                      (fun c => SeekCursor c lastKey lastPrimaryKey) cursor)
  end.

(** *** [queryRange] (lines 86-257) *)

Definition useCursor (query : Query) : bool :=
  let idx := tableIndexLookup next (table query) (index query) in
  match pageToken query with
  | Some pageToken => negb (isLastKeyToken pageToken)
  | None => false
  end
  || reverse query
  || unique query
  || (keyLength idx =? 0)
  || ((limit query <? 10) && negb (values query)
      && negb (isPrimaryKey (dbIndex idx))).

(** [values ? cursor.value : cursor.primaryKey] *)
Definition entryOf (query : Query) (cursor : CursorEntry) : any :=
  if values query then value cursor else primaryKey cursor.

(** The callback of the cursor path (lines 114-120). *)
Definition collect (query : Query) (cursor : CursorEntry) (result : list any)
  : list any * Action bool :=
  let result := result ++ [entryOf query cursor] in
  if List.length result =? limit query
  then (result, Stop true)
  else (result, Continue).

(** The objects handed to [cursor.stop] in the fallback sub-protocol,
    [{passed: true}] and [{lastPrimaryKey: cursor.primaryKey}], with the
    properties that are read from them afterwards; a property an object
    does not have reads as [undefined] ([false] in a condition). *)
Record StopResult : Type := {
  passed : bool;
  prop_lastPrimaryKey : any;
  prop_primaryKey : any
}.

(** The callback of the fallback sub-protocol (lines 141-150). *)
Definition collectDuplicates (query : Query) (lastKey : any)
           (cursor : CursorEntry) (result : list any)
  : list any * Action StopResult :=
  if (cmp next (key cursor) lastKey >? 0)%Z
  then (result, Stop {| passed := true;
                        prop_lastPrimaryKey := undefined;
                        prop_primaryKey := undefined |})
  else
    let result := result ++ [entryOf query cursor] in
    if List.length result <? limit query
    then (result, Continue)
    else (result, Stop {| passed := false;
                          prop_lastPrimaryKey := primaryKey cursor;
                          prop_primaryKey := undefined |}).

Definition onlyResult (result : list any) : Response :=
  {| result := result; resPageToken := None; partial := false |}.

Definition withToken (result : list any) (t : KeyRangePageToken Key Value)
  : Response :=
  {| result := result; resPageToken := Some t; partial := false |}.

(** The cursor path (lines 105-123). *)
Definition cursorPath (query : Query) : Promise Response :=
  cursor <- openCursor query ;;
  match cursor with
  | None => resolve (onlyResult [])
  | Some cursor =>
      '(cursor, result, limitReached) <- start cursor (collect query) [] ;;
      match limitReached with
      | Some true =>
          if wantPageToken query
          then resolve (withToken result (CursorToken (Some cursor)))
          else resolve (onlyResult result)
      | _ => resolve (onlyResult result)
      end
  end.

(** The fallback sub-protocol (lines 137-173). *)
Definition cursorFallback (query : Query) (lastKey : any) : Promise Response :=
  cursor <- openCursor query ;;
  match cursor with
  | None => resolve (onlyResult [])
  | Some cursor =>
      '(_, result, res) <- start cursor (collectDuplicates query lastKey) [] ;;
      match res with
      | None => resolve (onlyResult result)
      | Some res =>
          if passed res
          then resolve {| result := result;
                          partial := true;
                          resPageToken := Some (LastKeyToken lastKey undefined) |}
          else if wantPageToken query
               then resolve (withToken result
                               (LastKeyToken lastKey (prop_primaryKey res)))
               else resolve (onlyResult result)
      end
  end.

(** The bulk read and the token built from it (lines 187-256). *)
Definition bulkScan (query : Query) : Promise Response :=
  let idx := tableIndexLookup next (table query) (index query) in
  result <- next_getAll query ;;
  if List.length result <? limit query
  then resolve (onlyResult result)
  else if multiEntry (dbIndex idx) || (values query && (keyLength idx =? 0))
  then (if negb (wantPageToken query)
        then resolve (onlyResult result)
        else resolve (withToken result (OffsetToken (limit query))))
  else if negb (wantPageToken query)
  then resolve (onlyResult result)
  else
    let lastEntry := nth (limit query - 1) result undefined in
    if values query
    then
      let primaryKeyIdx := tableIndexLookup next (table query) ":id" in
      resolve (withToken result
                 (LastKeyToken (extractKey idx lastEntry)
                               (if isUnique (dbIndex idx)
                                then null
                                else extractKey primaryKeyIdx lastEntry)))
    else if isPrimaryKey (dbIndex idx)
    then resolve (withToken result (LastKeyToken lastEntry undefined))
    else
      got <- next_get (trans query) (table query) [lastEntry] ;;
      let value := nth 0 got undefined in
      resolve (withToken result
                 (LastKeyToken lastEntry (extractKey idx value))).

(** The range of the bulk read after a plain [lastKey] token
    (lines 176-183). *)
Definition afterLastKey (query : Query) (lastKey : any) : Query :=
  withRange query {| lower := lastKey; lowerOpen := true;
                     upper := upper (range query);
                     upperOpen := upperOpen (range query) |}.

Definition queryRange (query : Query) : Promise Response :=
  if limit query =? 0
  then (if wantPageToken query
        then cursor <- openCursor query ;;
             resolve {| result := [];
                        resPageToken := Some (CursorToken cursor);
                        partial := false |}
        else resolve (onlyResult []))
  else if useCursor query
  then cursorPath query
  else
    match pageToken query with
    | Some pageToken =>
        let lastKey := tokenLastKey pageToken in
        let lastPrimaryKey := tokenLastPrimaryKey pageToken in
        if negb (nullish lastPrimaryKey)
        then cursorFallback query lastKey
        else bulkScan (afterLastKey query lastKey)
    | None => bulkScan query
    end.

(** *** The object returned by [KeyRangePagingEngine] (lines 38-45) *)

(** What a method call hands back: a promise, or [null] itself. *)
Inductive Returned (A : Type) : Type :=
| ReturnsNull
| ReturnsPromise (p : Promise A).
Arguments ReturnsNull {A}.

(** [KeyRangePagingCore]: the members of [next] ([...next]) with
    [queryRange] added and [openCursor] replaced. *)
Record KeyRangePagingCore : Type := {
  core_cmp : any -> any -> Z;
  core_getAll : Query -> Promise (list any);
  core_get : Transaction -> string -> list any -> Promise (list any);
  core_tableIndexLookup : string -> string -> VirtualIndex Key Value;
  core_queryRange : Query -> Promise Response;
  core_openCursor : Query -> Returned (option DBCoreCursor)
}.

Definition KeyRangePagingEngine : KeyRangePagingCore :=
  {| core_cmp := cmp next;
     core_getAll := next_getAll;
     core_get := next_get;
     core_tableIndexLookup := tableIndexLookup next;
     core_queryRange := queryRange;
     core_openCursor := fun query => ReturnsNull |}.

(** *** What a call reads *)

(** The entries a cursor object hands to a callback once started. *)
Definition upcoming (cursor : Cursor) : list CursorEntry :=
  match cursor with
  | DBCursor c => pending c
  | OffsetCursor None _ => []
  | OffsetCursor (Some c) offset => skipn offset (pending c)
  | SeekCursor c lastKey lastPrimaryKey =>
      tl (seekTo (descending c) lastKey lastPrimaryKey (pending c))
  end.

(** The query [openCursor] hands to the layer below: after a [lastKey]
    token, the range starts (ends, when reversed) at [lastKey],
    inclusive. *)
Definition cursorQuery (query : Query) : Query :=
  match pageToken query with
  | Some (LastKeyToken lastKey _) =>
      withRange query
        (if reverse query
         then {| lower := lower (range query);
                 lowerOpen := lowerOpen (range query);
                 upper := lastKey; upperOpen := false |}
         else {| lower := lastKey; lowerOpen := false;
                 upper := upper (range query);
                 upperOpen := upperOpen (range query) |})
  | _ => query
  end.

(** The query of the bulk read: after a token, the range starts past
    the token's [lastKey]. *)
Definition bulkQuery (query : Query) : Query :=
  match pageToken query with
  | Some pageToken => afterLastKey query (tokenLastKey pageToken)
  | None => query
  end.

(** *** The caller's loop *)

(** Call again with the previous response's token until a response
    carries none; [None] when [fuel] calls did not get there. *)
Fixpoint paginate (fuel : nat) (query : Query) : option (list any) :=
  match fuel with
  | 0 => None
  | S fuel =>
      let response := resolved (queryRange query) in
      match resPageToken response with
      | None => Some (result response)
      | Some t =>
          option_map (app (result response))
                     (paginate fuel (withPageToken query (Some t)))
      end
  end.

(** *** Readings of a call *)

Definition isGet (c : Call Key Value Transaction) : bool :=
  match c with
  | CallGet _ _ _ => true
  | _ => false
  end.

Definition isOpenCursor (c : Call Key Value Transaction) : bool :=
  match c with
  | CallOpenCursor _ => true
  | _ => false
  end.

(** A range read of the layer below: a cursor opened or a bulk read. *)
Definition isRangeRead (c : Call Key Value Transaction) : bool :=
  isOpenCursor c || isGetAll c.

(** A call on the layer below that carries the caller's query with at
    most another range, or looks up in the caller's table and
    transaction. *)
Definition forwards (query : Query) (c : Call Key Value Transaction) : Prop :=
  match c with
  | CallOpenCursor q | CallGetAll q => exists r, q = withRange query r
  | CallGet t tbl _ => t = trans query /\ tbl = table query
  | CallStart _ => True
  end.

(** The entries at the head of a cursor that are not past [lastKey]:
    those on which the callback of the fallback does not report
    [passed]. *)
Fixpoint duplicateRun (lastKey : any) (entries : list CursorEntry)
  : list CursorEntry :=
  match entries with
  | [] => []
  | e :: rest =>
      if (cmp next (key e) lastKey >? 0)%Z
      then []
      else e :: duplicateRun lastKey rest
  end.

(** Cursor objects whose [start] does not seek: a cursor of the layer
    below and the [OffsetCursor] decorator. *)
Definition resumable (cursor : Cursor) : bool :=
  match cursor with
  | SeekCursor _ _ _ => false
  | _ => true
  end.

Definition hasToken (response : Response) : bool :=
  match resPageToken response with
  | Some _ => true
  | None => false
  end.

End Engine.
End Engine.

(** ** A store to run the engine on *)

Module Store.

(** Keys are integers, a record is a pair (id, indexed field), and the
    single table is read inside one transaction. *)
Definition Key : Type := Z.
Definition Value : Type := (Z * Z)%type.
Definition Transaction : Type := unit.

Abbreviation any := (any Key Value).
Abbreviation CursorEntry := (CursorEntry Key Value).
Abbreviation Query := (PagableKeyRangeQuery Key Value Transaction).

Record Database : Type := {
  rows : list Value;
  indexes : string -> VirtualIndex Key Value
}.

(** Modelled from the spec: the key comparator of the storage layer
    (section 6), a total order on keys; here the order of the integers. *)
Definition cmpKeys (a b : any) : Z :=
  match a, b with
  | JsKey x, JsKey y =>
      match (x ?= y)%Z with
      | Lt => (-1)%Z
      | Eq => 0%Z
      | Gt => 1%Z
      end
  | _, _ => 0%Z
  end.

Definition inRange (r : KeyRange Key Value) (k : any) : bool :=
  (nullish (lower r)
   || (if lowerOpen r then (cmpKeys (lower r) k <? 0)%Z else (cmpKeys (lower r) k <=? 0)%Z))
  && (nullish (upper r)
      || (if upperOpen r then (cmpKeys k (upper r) <? 0)%Z else (cmpKeys k (upper r) <=? 0)%Z)).

(** Index entries are kept in the order of (key, primary key). *)
Definition entryLe (a b : CursorEntry) : bool :=
  (cmpKeys (key a) (key b) <? 0)%Z
  || ((cmpKeys (key a) (key b) =? 0)%Z && (cmpKeys (primaryKey a) (primaryKey b) <=? 0)%Z).

Fixpoint insertEntry (e : CursorEntry) (l : list CursorEntry) : list CursorEntry :=
  match l with
  | [] => [e]
  | x :: rest => if entryLe e x then e :: l else x :: insertEntry e rest
  end.

Definition sortEntries (l : list CursorEntry) : list CursorEntry :=
  fold_right insertEntry [] l.

Definition indexEntries (db : Database) (i : string) : list CursorEntry :=
  sortEntries
    (map (fun r => {| key := extractKey (indexes db i) (JsRecord r);
                      primaryKey := JsKey (fst r);
                      value := JsRecord r |})
         (rows db)).

(** [unique]: one entry per key, the first of each run. *)
Fixpoint firstOfEachKey (l : list CursorEntry) : list CursorEntry :=
  match l with
  | [] => []
  | e :: rest =>
      e :: match rest with
           | [] => []
           | e' :: _ =>
               if (cmpKeys (key e) (key e') =? 0)%Z
               then tl (firstOfEachKey rest)
               else firstOfEachKey rest
           end
  end.

(** The entries a query matches, in the order it asks for. *)
Definition scan (db : Database) (query : Query) : list CursorEntry :=
  let matching :=
    filter (fun e => inRange (range query) (key e)) (indexEntries db (index query)) in
  let matching := if unique query then firstOfEachKey matching else matching in
  if reverse query then rev matching else matching.

Definition pick (query : Query) (e : CursorEntry) : any :=
  if values query then value e else primaryKey e.

Definition lookup (db : Database) (k : any) : any :=
  match find (fun r => (cmpKeys (JsKey (fst r)) k =? 0)%Z && negb (nullish k)) (rows db) with
  | Some r => JsRecord r
  | None => undefined
  end.

(** Modelled from the spec: the collaborator contract of section 6.
    [getAll] honours range, limit and ordering; [openCursor] answers a
    cursor on the first entry of the range, or [null] when the range is
    empty; [get] is the point lookup by primary key. *)
Definition core (db : Database) : VirtualIndexCore Key Value Transaction :=
  {| cmp := cmpKeys;
     getAll := fun query => firstn (limit query) (map (pick query) (scan db query));
     openCursor := fun query =>
                     match scan db query with
                     | [] => None
                     | es => Some {| pending := es; descending := reverse query |}
                     end;
     get := fun _ _ keys => map (lookup db) keys;
     tableIndexLookup := fun _ i => indexes db i |}.

(** A single unbounded scan of the query's range. *)
Definition fullScan (db : Database) (query : Query) : list any :=
  map (pick query) (scan db query).

(** *** The [friends] table *)

Definition idOf (x : any) : any :=
  match x with
  | JsRecord r => JsKey (fst r)
  | _ => undefined
  end.

Definition fieldOf (x : any) : any :=
  match x with
  | JsRecord r => JsKey (snd r)
  | _ => undefined
  end.

Definition primaryIndex : VirtualIndex Key Value :=
  {| dbIndex := {| multiEntry := false; isUnique := true; isPrimaryKey := true |};
     keyLength := 1; extractKey := idOf |}.

Definition plainIndex : VirtualIndex Key Value :=
  {| dbIndex := {| multiEntry := false; isUnique := false; isPrimaryKey := false |};
     keyLength := 1; extractKey := fieldOf |}.

Definition uniqueIndex : VirtualIndex Key Value :=
  {| dbIndex := {| multiEntry := false; isUnique := true; isPrimaryKey := false |};
     keyLength := 1; extractKey := fieldOf |}.

Definition multiIndex : VirtualIndex Key Value :=
  {| dbIndex := {| multiEntry := true; isUnique := false; isPrimaryKey := false |};
     keyLength := 1; extractKey := fieldOf |}.

Definition friendsIndexes (i : string) : VirtualIndex Key Value :=
  if String.eqb i ":id" then primaryIndex
  else if String.eqb i "code" then uniqueIndex
  else if String.eqb i "tags" then multiIndex
  else plainIndex.

Definition friends (rs : list Value) : Database :=
  {| rows := rs; indexes := friendsIndexes |}.

Definition everything : KeyRange Key Value :=
  {| lower := undefined; lowerOpen := false; upper := undefined; upperOpen := false |}.

(** A first-page query: no token, ascending, all entries of the index. *)
Definition firstPage (i : string) (vals : bool) (k : nat) : Query :=
  {| trans := tt; table := "friends"; index := i; range := everything;
     values := vals; limit := k; unique := false; reverse := false;
     wantPageToken := true; pageToken := None |}.

(** The same, in descending order. *)
Definition firstPageDescending (i : string) (vals : bool) (k : nat) : Query :=
  {| trans := tt; table := "friends"; index := i; range := everything;
     values := vals; limit := k; unique := false; reverse := true;
     wantPageToken := true; pageToken := None |}.

(** A follow-up query that wants no further token. *)
Definition lastPage (i : string) (vals : bool) (k : nat)
           (t : KeyRangePageToken Key Value) : Query :=
  {| trans := tt; table := "friends"; index := i; range := everything;
     values := vals; limit := k; unique := false; reverse := false;
     wantPageToken := false; pageToken := Some t |}.

(** The primary keys [from], ..., [from + n - 1]. *)
Definition keysFrom (from n : nat) : list any :=
  map (fun i => JsKey (Z.of_nat i)) (seq from n).

(** Three friends of the same age. *)
Definition sameAge : Database := friends [(1, 5); (2, 5); (3, 5)]%Z.

(** Two friends of one age and an older one. *)
Definition twoAges : Database := friends [(1, 5); (2, 5); (3, 6)]%Z.

(** Nobody. *)
Definition nobody : Database := friends [].

(** Twelve friends; friend [i] has the field [100 + i]. *)
Definition twelve : Database :=
  friends (map (fun i => (Z.of_nat i, 100 + Z.of_nat i)%Z) (seq 1 12)).

End Store.

(** ** Properties of the engine, for any layer below *)

Section Properties.

Context {Key Value Transaction : Type}.
Abbreviation any := (any Key Value).
Abbreviation CursorEntry := (CursorEntry Key Value).
Abbreviation Cursor := (Cursor Key Value).
Abbreviation Query := (PagableKeyRangeQuery Key Value Transaction).
Abbreviation Promise := (Promise Key Value Transaction).

Variable next : VirtualIndexCore Key Value Transaction.

(** *** Promises *)

Lemma calls_andThen {A B} (p : Promise A) (f : A -> Promise B) :
  calls (andThen p f) = calls p ++ calls (f (resolved p)).
Proof.
  destruct p as [l a]; unfold andThen, calls, resolved; simpl.
  destruct (f a); reflexivity.
Qed.

Lemma resolved_andThen {A B} (p : Promise A) (f : A -> Promise B) :
  resolved (andThen p f) = resolved (f (resolved p)).
Proof.
  destruct p as [l a]; unfold andThen, resolved; simpl.
  destruct (f a); reflexivity.
Qed.

(** *** Cursors *)

Lemma calls_dbStart {S R} c (callback : CursorEntry -> S -> S * Engine.Action R) s seek :
  calls (Engine.dbStart next c callback s seek) = [CallStart seek].
Proof.
  unfold Engine.dbStart.
  destruct (Engine.iterate callback _ s) as [[rest s'] r]; reflexivity.
Qed.

Lemma resolved_dbStart {S R} c (callback : CursorEntry -> S -> S * Engine.Action R) s :
  let it := Engine.iterate callback (pending c) s in
  resolved (Engine.dbStart next c callback s None)
  = ({| pending := fst (fst it); descending := descending c |}, snd (fst it), snd it).
Proof.
  unfold Engine.dbStart; simpl.
  destruct (Engine.iterate callback (pending c) s) as [[rest s'] r]; reflexivity.
Qed.

Lemma resolved_dbStart_seek c k pk :
  resolved (Engine.dbStart next c (fun _ (_ : unit) => (tt, Engine.Stop tt)) tt (Some (k, pk)))
  = ({| pending := tl (Engine.seekTo next (descending c) k pk (pending c));
        descending := descending c |},
     tt,
     match Engine.seekTo next (descending c) k pk (pending c) with
     | [] => None
     | _ :: _ => Some tt
     end).
Proof.
  unfold Engine.dbStart.
  destruct (Engine.seekTo next (descending c) k pk (pending c)); reflexivity.
Qed.

(** Starting a cursor only starts cursors of the layer below. *)
Lemma calls_start {S R} (cursor : Cursor)
      (callback : CursorEntry -> S -> S * Engine.Action R) s :
  forallb (@isStart _ _ _) (calls (Engine.start next cursor callback s)) = true.
Proof.
  destruct cursor as [c | [c|] offset | c lastKey lastPrimaryKey];
    unfold Engine.start, Engine.offsetStart, Engine.seekStart.
  - rewrite calls_andThen, calls_dbStart.
    destruct (resolved _) as [[c' s'] r]; reflexivity.
  - rewrite calls_andThen, calls_dbStart.
    destruct (resolved _) as [[c' s'] r]; reflexivity.
  - reflexivity.
  - rewrite calls_andThen, calls_dbStart.
    destruct (resolved _) as [[c1 u] o].
    rewrite calls_andThen, calls_dbStart.
    destruct (resolved _) as [[c2 s'] r]; reflexivity.
Qed.

(** What a callback collects depends only on the upcoming entries of
    the cursor it is started on. *)
Lemma resolved_start {S R} (cursor : Cursor)
      (callback : CursorEntry -> S -> S * Engine.Action R) s :
  let it := Engine.iterate callback (Engine.upcoming next cursor) s in
  snd (fst (resolved (Engine.start next cursor callback s))) = snd (fst it)
  /\ snd (resolved (Engine.start next cursor callback s)) = snd it.
Proof.
  destruct cursor as [c | [c|] offset | c lastKey lastPrimaryKey];
    unfold Engine.start, Engine.offsetStart, Engine.seekStart; simpl.
  - rewrite resolved_andThen, resolved_dbStart; simpl. auto.
  - rewrite resolved_andThen, resolved_dbStart; simpl. auto.
  - auto.
  - rewrite resolved_andThen, resolved_dbStart_seek; simpl.
    rewrite resolved_andThen, resolved_dbStart; simpl. auto.
Qed.

(** *** The token resolver *)

Lemma calls_openCursor (query : Query) :
  calls (Engine.openCursor next query)
  = match pageToken query with
    | Some (CursorToken _) => []
    | _ => [CallOpenCursor (Engine.cursorQuery query)]
    end.
Proof.
  unfold Engine.openCursor, Engine.cursorQuery.
  destruct (pageToken query) as [[c | offset | lastKey lastPrimaryKey]|];
    try reflexivity.
  destruct (nullish lastPrimaryKey); reflexivity.
Qed.

Lemma openCursor_reads_nothing (query : Query) :
  existsb (@readsEntries _ _ _) (calls (Engine.openCursor next query)) = false.
Proof.
  rewrite calls_openCursor.
  destruct (pageToken query) as [[c | offset | lastKey lastPrimaryKey]|];
    reflexivity.
Qed.

Lemma openCursor_no_getAll (query : Query) :
  existsb (@isGetAll _ _ _) (calls (Engine.openCursor next query)) = false.
Proof.
  rewrite calls_openCursor.
  destruct (pageToken query) as [[c | offset | lastKey lastPrimaryKey]|];
    reflexivity.
Qed.

Lemma start_no_getAll {S R} (cursor : Cursor)
      (callback : CursorEntry -> S -> S * Engine.Action R) s :
  existsb (@isGetAll _ _ _) (calls (Engine.start next cursor callback s)) = false.
Proof.
  pose proof (calls_start cursor callback s) as H.
  induction (calls (Engine.start next cursor callback s)) as [|c l IH];
    [reflexivity|].
  simpl in H. apply andb_true_iff in H as [Hc Hl].
  destruct c; try discriminate. simpl. auto.
Qed.

Lemma cursorPath_no_getAll (query : Query) :
  existsb (@isGetAll _ _ _) (calls (Engine.cursorPath next query)) = false.
Proof.
  unfold Engine.cursorPath.
  rewrite calls_andThen, existsb_app, openCursor_no_getAll. simpl.
  destruct (resolved (Engine.openCursor next query)) as [cursor|];
    [|reflexivity].
  rewrite calls_andThen, existsb_app, start_no_getAll. simpl.
  destruct (resolved (Engine.start _ _ _ _)) as [[cursor' result] [[|]|]];
    try reflexivity.
  destruct (wantPageToken query); reflexivity.
Qed.

(** *** Strategy selection *)

(** C8. A query with [reverse] set selects the cursor path: [useCursor]
    holds, a call with a positive limit is answered by the cursor
    iterator, and no call, whatever its limit, flags, index or inbound
    token, performs a bulk read ([getAll]) on the layer below. *)
Theorem reverse_selects_cursor_path (query : Query) :
  reverse query = true ->
  Engine.useCursor next query = true
  /\ (limit query <> 0 ->
      Engine.queryRange next query = Engine.cursorPath next query)
  /\ existsb (@isGetAll _ _ _) (calls (Engine.queryRange next query)) = false.
Proof.
  intros Hrev.
  assert (Huse : Engine.useCursor next query = true).
  { unfold Engine.useCursor. rewrite Hrev.
    destruct (pageToken query) as [t|]; [destruct (negb _)|]; reflexivity. }
  split; [exact Huse|].
  unfold Engine.queryRange. rewrite Huse.
  destruct (Nat.eqb_spec (limit query) 0) as [Hz|Hnz].
  - split; [intros Hne; contradiction|].
    destruct (wantPageToken query); [|reflexivity].
    rewrite calls_andThen, existsb_app, openCursor_no_getAll. reflexivity.
  - split; [reflexivity|]. apply cursorPath_no_getAll.
Qed.

(** *** The empty page *)

(** C10. A query with limit 0 gets an empty result.  When a token is
    wanted, the response carries a [cursor] token holding the cursor
    exactly as the token resolver opened it, and no call made on the
    layer below reads or consumes an entry (no [getAll], no [get], no
    cursor is started).  When no token is wanted, the response carries
    none and the layer below is not called at all. *)
Theorem limit_zero_empty_page (query : Query) :
  limit query = 0 ->
  let response := resolved (Engine.queryRange next query) in
  result response = []
  /\ partial response = false
  /\ (wantPageToken query = true ->
      resPageToken response
      = Some (CursorToken (resolved (Engine.openCursor next query)))
      /\ existsb (@readsEntries _ _ _) (calls (Engine.queryRange next query)) = false)
  /\ (wantPageToken query = false ->
      resPageToken response = None
      /\ calls (Engine.queryRange next query) = []).
Proof.
  intros Hz. unfold Engine.queryRange. rewrite Hz. simpl.
  destruct (wantPageToken query).
  - rewrite resolved_andThen, calls_andThen, existsb_app,
      openCursor_reads_nothing. simpl.
    repeat split; try reflexivity; discriminate.
  - simpl. repeat split; try reflexivity; discriminate.
Qed.

(** *** The bulk scan *)

Lemma resolved_openCursor (query : Query) :
  resolved (Engine.openCursor next query)
  = match pageToken query with
    | None => option_map (@DBCursor _ _) (openCursor next query)
    | Some (CursorToken cursor) => cursor
    | Some (OffsetToken offset) => Some (OffsetCursor (openCursor next query) offset)
    | Some (LastKeyToken lastKey lastPrimaryKey) =>
        if nullish lastPrimaryKey
        then option_map (@DBCursor _ _) (openCursor next (Engine.cursorQuery query))
        else option_map (fun c => SeekCursor c lastKey lastPrimaryKey)
                        (openCursor next (Engine.cursorQuery query))
    end.
Proof.
  unfold Engine.openCursor, Engine.cursorQuery.
  destruct (pageToken query) as [[c | offset | lastKey lastPrimaryKey]|];
    try reflexivity.
  destruct (nullish lastPrimaryKey); reflexivity.
Qed.

(** With a positive limit, no cursor strategy and no [lastPrimaryKey]
    to resume from, the call is the bulk scan of [bulkQuery]. *)
Lemma queryRange_bulk (query : Query) :
  limit query <> 0 ->
  Engine.useCursor next query = false ->
  (forall t, pageToken query = Some t -> nullish (tokenLastPrimaryKey t) = true) ->
  Engine.queryRange next query = Engine.bulkScan next (Engine.bulkQuery query).
Proof.
  intros Hnz Huse Htok. unfold Engine.queryRange, Engine.bulkQuery.
  destruct (Nat.eqb_spec (limit query) 0) as [Hz|_]; [contradiction|].
  rewrite Huse.
  destruct (pageToken query) as [t|]; [|reflexivity].
  rewrite (Htok t eq_refl). reflexivity.
Qed.

(** The token decision of lines 193-211, on any query handed to the
    bulk scan. *)
Lemma bulkScan_offset_token (query : Query) :
  let idx := tableIndexLookup next (table query) (index query) in
  limit query <= List.length (getAll next query) ->
  wantPageToken query = true ->
  multiEntry (dbIndex idx) || (values query && (keyLength idx =? 0)) = true ->
  resolved (Engine.bulkScan next query)
  = Engine.withToken (getAll next query) (OffsetToken (limit query)).
Proof.
  intros idx Hlen Hwant Hshape. unfold Engine.bulkScan.
  rewrite resolved_andThen. simpl.
  destruct (Nat.ltb_spec (List.length (getAll next query)) (limit query)) as [Hlt|_];
    [lia|].
  fold idx. rewrite Hshape, Hwant. reflexivity.
Qed.

(** C9. On the bulk-scan path (positive limit, no cursor strategy, no
    [lastPrimaryKey] in the inbound token), when the bulk read returned
    exactly [limit] entries, a token is wanted, and the index is
    multi-valued or values are requested on an index of key length 0,
    the response carries the entries read and an [offset] token whose
    count is [limit]. *)
Theorem bulk_limit_offset_token (query : Query) :
  let idx := tableIndexLookup next (table query) (index query) in
  limit query <> 0 ->
  Engine.useCursor next query = false ->
  (forall t, pageToken query = Some t -> nullish (tokenLastPrimaryKey t) = true) ->
  List.length (getAll next (Engine.bulkQuery query)) = limit query ->
  wantPageToken query = true ->
  multiEntry (dbIndex idx) || (values query && (keyLength idx =? 0)) = true ->
  resolved (Engine.queryRange next query)
  = {| result := getAll next (Engine.bulkQuery query);
       resPageToken := Some (OffsetToken (limit query));
       partial := false |}.
Proof.
  intros idx Hnz Huse Htok Hlen Hwant Hshape.
  rewrite queryRange_bulk by assumption.
  rewrite bulkScan_offset_token.
  - unfold Engine.withToken, Engine.bulkQuery.
    destruct (pageToken query); reflexivity.
  - unfold Engine.bulkQuery in *. destruct (pageToken query); simpl; lia.
  - unfold Engine.bulkQuery. destruct (pageToken query); exact Hwant.
  - unfold Engine.bulkQuery. destruct (pageToken query); exact Hshape.
Qed.

(** *** The fallback sub-protocol *)

(** With a positive limit, no cursor strategy and a [lastPrimaryKey] to
    resume from, the call is the fallback sub-protocol. *)
Lemma queryRange_fallback (query : Query) lastKey lastPrimaryKey :
  limit query <> 0 ->
  Engine.useCursor next query = false ->
  pageToken query = Some (LastKeyToken lastKey lastPrimaryKey) ->
  nullish lastPrimaryKey = false ->
  Engine.queryRange next query = Engine.cursorFallback next query lastKey.
Proof.
  intros Hnz Huse Htok Hlpk. unfold Engine.queryRange.
  destruct (Nat.eqb_spec (limit query) 0) as [Hz|_]; [contradiction|].
  rewrite Huse, Htok. simpl. rewrite Hlpk. reflexivity.
Qed.

(** Entries up to [lastKey] are collected until one past it shows up. *)
Lemma iterate_passed (query : Query) lastKey pre e post : forall acc,
  Forall (fun x => (cmp next (key x) lastKey <= 0)%Z) pre ->
  List.length acc + List.length pre < limit query ->
  (cmp next (key e) lastKey > 0)%Z ->
  Engine.iterate (Engine.collectDuplicates next query lastKey) (pre ++ e :: post) acc
  = (post, acc ++ map (Engine.entryOf query) pre,
     Some {| Engine.passed := true;
             Engine.prop_lastPrimaryKey := undefined;
             Engine.prop_primaryKey := undefined |}).
Proof.
  induction pre as [|x pre IH]; intros acc Hpre Hlen Hpast; simpl.
  - unfold Engine.collectDuplicates.
    destruct (Z.gtb_spec (cmp next (key e) lastKey) 0) as [_|Hle]; [|lia].
    rewrite app_nil_r. reflexivity.
  - inversion Hpre as [|x' pre' Hx Hrest]; subst.
    unfold Engine.collectDuplicates at 1.
    destruct (Z.gtb_spec (cmp next (key x) lastKey) 0) as [Hgt|_]; [lia|].
    simpl in Hlen.
    destruct (Nat.ltb_spec (List.length (acc ++ [Engine.entryOf query x])) (limit query))
      as [_|Hge]; [|rewrite length_app in Hge; simpl in Hge; lia].
    rewrite IH; [|assumption|rewrite length_app; simpl; lia|assumption].
    rewrite <- app_assoc. reflexivity.
Qed.

(** C5. In the fallback sub-protocol (an inbound [lastKey] token with a
    [lastPrimaryKey]), when the cursor meets an entry whose key is
    strictly past [lastKey] by the store's comparator before [limit]
    entries were collected, the response holds the entries collected so
    far, has [partial] set, and carries a [lastKey] token with the same
    [lastKey] and no [lastPrimaryKey]; [wantPageToken] plays no part. *)
Theorem fallback_passed_is_partial (query : Query) lastKey lastPrimaryKey
        (cursor : Cursor) pre e post :
  limit query <> 0 ->
  Engine.useCursor next query = false ->
  pageToken query = Some (LastKeyToken lastKey lastPrimaryKey) ->
  nullish lastPrimaryKey = false ->
  resolved (Engine.openCursor next query) = Some cursor ->
  Engine.upcoming next cursor = pre ++ e :: post ->
  Forall (fun x => (cmp next (key x) lastKey <= 0)%Z) pre ->
  List.length pre < limit query ->
  (cmp next (key e) lastKey > 0)%Z ->
  resolved (Engine.queryRange next query)
  = {| result := map (Engine.entryOf query) pre;
       resPageToken := Some (LastKeyToken lastKey undefined);
       partial := true |}.
Proof.
  intros Hnz Huse Htok Hlpk Hcur Hup Hpre Hlen Hpast.
  rewrite (@queryRange_fallback query lastKey lastPrimaryKey Hnz Huse Htok Hlpk).
  unfold Engine.cursorFallback.
  rewrite resolved_andThen, Hcur, resolved_andThen.
  destruct (resolved_start cursor (Engine.collectDuplicates next query lastKey) [])
    as [Hres Hstop].
  rewrite Hup, (@iterate_passed query lastKey pre e post [] Hpre Hlen Hpast) in Hres, Hstop.
  simpl in Hres, Hstop.
  destruct (resolved (Engine.start next cursor _ [])) as [[cursor' result'] res].
  simpl in Hres, Hstop. subst. reflexivity.
Qed.

(** *** A range without entries *)

(** C7, as the code has it.  With a positive limit, when the reads of
    the layer below on the query's range (narrowed by the inbound token)
    find nothing and an inbound cursor has nothing left, the result is
    empty and the response carries no token, whether or not one is
    wanted. *)
Theorem empty_range_no_token (query : Query) :
  limit query <> 0 ->
  openCursor next (Engine.cursorQuery query) = None ->
  getAll next (Engine.bulkQuery query) = [] ->
  (forall c, pageToken query = Some (CursorToken (Some c)) ->
             Engine.upcoming next c = []) ->
  resolved (Engine.queryRange next query)
  = {| result := []; resPageToken := None; partial := false |}.
Proof.
  intros Hnz Hopen Hall Hleft. unfold Engine.queryRange.
  destruct (Nat.eqb_spec (limit query) 0) as [Hz|_]; [contradiction|].
  destruct (Engine.useCursor next query).
  - unfold Engine.cursorPath.
    rewrite resolved_andThen, resolved_openCursor.
    unfold Engine.cursorQuery in *.
    destruct (pageToken query) as [[[c|] | offset | lastKey lastPrimaryKey]|].
    + rewrite resolved_andThen.
      destruct (resolved_start c (Engine.collect query) []) as [Hres Hstop].
      rewrite (Hleft c eq_refl) in Hres, Hstop. simpl in Hres, Hstop.
      destruct (resolved (Engine.start next c _ [])) as [[c' result'] reached].
      simpl in Hres, Hstop. subst. reflexivity.
    + reflexivity.
    + rewrite Hopen. reflexivity.
    + rewrite Hopen.
      destruct (nullish lastPrimaryKey); reflexivity.
    + rewrite Hopen. reflexivity.
  - destruct (pageToken query) as [t|] eqn:Htok.
    + destruct (nullish (tokenLastPrimaryKey t)) eqn:Hlpk; simpl.
      * unfold Engine.bulkScan. rewrite resolved_andThen. simpl.
        unfold Engine.bulkQuery in Hall. rewrite Htok in Hall. rewrite Hall.
        simpl. destruct (limit query); [contradiction|reflexivity].
      * unfold Engine.cursorFallback.
        rewrite resolved_andThen, resolved_openCursor.
        unfold Engine.cursorQuery in *. rewrite Htok in *.
        destruct t as [c | offset | lastKey lastPrimaryKey];
          try discriminate Hlpk.
        simpl in Hlpk. rewrite Hlpk, Hopen. reflexivity.
    + unfold Engine.bulkScan. rewrite resolved_andThen. simpl.
      unfold Engine.bulkQuery in Hall. rewrite Htok in Hall. rewrite Hall.
      simpl. destruct (limit query); [contradiction|reflexivity].
Qed.

(** *** What the tokens of the bulk scan and of the fallback hold *)

(** Lines 243-255: with keys only on an index that is not the primary
    key, whatever its [unique] attribute, the token's [lastKey] is the
    last entry itself and its [lastPrimaryKey] is the key extracted from
    the record looked up. *)
Lemma bulkScan_keys_only_token (query : Query) :
  let idx := tableIndexLookup next (table query) (index query) in
  let lastEntry := nth (limit query - 1) (getAll next query) undefined in
  limit query <= List.length (getAll next query) ->
  wantPageToken query = true ->
  multiEntry (dbIndex idx) = false ->
  values query = false ->
  isPrimaryKey (dbIndex idx) = false ->
  resPageToken (resolved (Engine.bulkScan next query))
  = Some (LastKeyToken
            lastEntry
            (extractKey idx
               (nth 0 (get next (trans query) (table query) [lastEntry]) undefined))).
Proof.
  intros idx lastEntry Hlen Hwant Hmulti Hvalues Hprimary.
  unfold Engine.bulkScan. rewrite resolved_andThen. simpl.
  destruct (Nat.ltb_spec (List.length (getAll next query)) (limit query)) as [Hlt|_];
    [lia|].
  fold idx. rewrite Hmulti, Hvalues, Hwant, Hprimary. simpl.
  reflexivity.
Qed.

(** Lines 217-242: with values on a unique index, and with keys only
    on the primary-key index, the token has no [lastPrimaryKey]. *)
Lemma bulkScan_minimal_token (query : Query) :
  let idx := tableIndexLookup next (table query) (index query) in
  limit query <= List.length (getAll next query) ->
  wantPageToken query = true ->
  multiEntry (dbIndex idx) = false ->
  keyLength idx <> 0 ->
  (values query = true /\ isUnique (dbIndex idx) = true)
  \/ (values query = false /\ isPrimaryKey (dbIndex idx) = true) ->
  exists lastKey lastPrimaryKey,
    resPageToken (resolved (Engine.bulkScan next query))
    = Some (LastKeyToken lastKey lastPrimaryKey)
    /\ nullish lastPrimaryKey = true.
Proof.
  intros idx Hlen Hwant Hmulti Hkey Hcase.
  unfold Engine.bulkScan. rewrite resolved_andThen. simpl.
  destruct (Nat.ltb_spec (List.length (getAll next query)) (limit query)) as [Hlt|_];
    [lia|].
  fold idx. rewrite Hmulti, Hwant.
  destruct (Nat.eqb_spec (keyLength idx) 0) as [Hz|_]; [contradiction|].
  rewrite andb_false_r. simpl.
  destruct Hcase as [[Hvalues Huniq] | [Hvalues Hprimary]]; rewrite Hvalues.
  - rewrite Huniq. eexists _, _. split; reflexivity.
  - rewrite Hprimary. eexists _, _. split; reflexivity.
Qed.

(** Lines 146-172: when the fallback stops because [limit] entries were
    collected, the token's [lastPrimaryKey] is the [primaryKey] property
    of the object given to [stop], which has none. *)
Lemma iterate_limit (query : Query) lastKey pre e post : forall acc,
  Forall (fun x => (cmp next (key x) lastKey <= 0)%Z) (pre ++ [e]) ->
  List.length acc + List.length pre + 1 = limit query ->
  Engine.iterate (Engine.collectDuplicates next query lastKey) (pre ++ e :: post) acc
  = (post, acc ++ map (Engine.entryOf query) (pre ++ [e]),
     Some {| Engine.passed := false;
             Engine.prop_lastPrimaryKey := primaryKey e;
             Engine.prop_primaryKey := undefined |}).
Proof.
  induction pre as [|x pre IH]; intros acc Hpre Hlen; simpl in *.
  - inversion Hpre as [|x' l' He _]; subst.
    unfold Engine.collectDuplicates.
    destruct (Z.gtb_spec (cmp next (key e) lastKey) 0) as [Hgt|_]; [lia|].
    destruct (Nat.ltb_spec (List.length (acc ++ [Engine.entryOf query e])) (limit query))
      as [Hlt|_]; [rewrite length_app in Hlt; simpl in Hlt; lia|].
    reflexivity.
  - inversion Hpre as [|x' l' Hx Hrest]; subst.
    unfold Engine.collectDuplicates at 1.
    destruct (Z.gtb_spec (cmp next (key x) lastKey) 0) as [Hgt|_]; [lia|].
    destruct (Nat.ltb_spec (List.length (acc ++ [Engine.entryOf query x])) (limit query))
      as [_|Hge]; [|rewrite length_app in Hge; simpl in Hge; lia].
    rewrite IH; [|assumption|rewrite length_app; simpl; lia].
    rewrite <- app_assoc. reflexivity.
Qed.

Lemma fallback_limit_token (query : Query) lastKey lastPrimaryKey
      (cursor : Cursor) pre e post :
  limit query <> 0 ->
  Engine.useCursor next query = false ->
  pageToken query = Some (LastKeyToken lastKey lastPrimaryKey) ->
  nullish lastPrimaryKey = false ->
  resolved (Engine.openCursor next query) = Some cursor ->
  Engine.upcoming next cursor = pre ++ e :: post ->
  Forall (fun x => (cmp next (key x) lastKey <= 0)%Z) (pre ++ [e]) ->
  List.length pre + 1 = limit query ->
  wantPageToken query = true ->
  resolved (Engine.queryRange next query)
  = {| result := map (Engine.entryOf query) (pre ++ [e]);
       resPageToken := Some (LastKeyToken lastKey undefined);
       partial := false |}.
Proof.
  intros Hnz Huse Htok Hlpk Hcur Hup Hpre Hlen Hwant.
  rewrite (@queryRange_fallback query lastKey lastPrimaryKey Hnz Huse Htok Hlpk).
  unfold Engine.cursorFallback.
  rewrite resolved_andThen, Hcur, resolved_andThen.
  destruct (resolved_start cursor (Engine.collectDuplicates next query lastKey) [])
    as [Hres Hstop].
  rewrite Hup, (@iterate_limit query lastKey pre e post [] Hpre Hlen) in Hres, Hstop.
  simpl in Hres, Hstop.
  destruct (resolved (Engine.start next cursor _ [])) as [[cursor' result'] res].
  simpl in Hres, Hstop. subst. simpl. rewrite Hwant. reflexivity.
Qed.

(** *** The returned core *)

(** Lines 38-45: [getAll], [get], [cmp] and [tableIndexLookup] are those
    of the layer below; [openCursor] answers [null] for every query. *)
Lemma KeyRangePagingEngine_members :
  let core := Engine.KeyRangePagingEngine next in
  Engine.core_cmp core = cmp next
  /\ Engine.core_tableIndexLookup core = tableIndexLookup next
  /\ (forall query, resolved (Engine.core_getAll core query) = getAll next query)
  /\ (forall t tbl keys, resolved (Engine.core_get core t tbl keys) = get next t tbl keys)
  /\ (forall query, Engine.core_openCursor core query = Engine.ReturnsNull _).
Proof. repeat split. Qed.

(** *** The caller's loop *)

Lemma paginate_step (fuel : nat) (query : Query) :
  Engine.paginate next (S fuel) query
  = match resPageToken (resolved (Engine.queryRange next query)) with
    | None => Some (result (resolved (Engine.queryRange next query)))
    | Some t =>
        option_map (app (result (resolved (Engine.queryRange next query))))
                   (Engine.paginate next fuel (withPageToken query (Some t)))
    end.
Proof. reflexivity. Qed.

End Properties.

(** ** The engine on the [friends] table *)

Section Friends.

Import Store.
Local Open Scope Z_scope.
Local Open Scope string_scope.

(** The example of section 8: primary keys 1..25 in pages of ten. *)
Example paging_primary_keys :
  let db := friends (map (fun i => (Z.of_nat i, 0)) (seq 1 25)) in
  let query := firstPage ":id" false 10 in
  let second := withPageToken query (Some (LastKeyToken (JsKey 10) undefined)) in
  let third := withPageToken query (Some (LastKeyToken (JsKey 20) undefined)) in
  resolved (Engine.queryRange (core db) query)
  = Engine.withToken (keysFrom 1 10) (LastKeyToken (JsKey 10) undefined)
  /\ resolved (Engine.queryRange (core db) second)
     = Engine.withToken (keysFrom 11 10) (LastKeyToken (JsKey 20) undefined)
  /\ resolved (Engine.queryRange (core db) third)
     = Engine.onlyResult (keysFrom 21 5)
  /\ Engine.paginate (core db) 3 query = Some (fullScan db query).
Proof. repeat split; vm_compute; reflexivity. Qed.

(** C1. Paging through three friends of the same age by their age, one
    record per page: the first page comes from the bulk read, the second
    from the fallback sub-protocol, whose token has lost its
    [lastPrimaryKey], so the third call reads past the age and finds
    nothing.  The pages add up to two records; a single scan of the
    range has three. *)
Theorem pagination_loses_a_duplicate :
  let query := firstPage "age" true 1 in
  Engine.paginate (core sameAge) 3 query
  = Some [JsRecord (1, 5); JsRecord (2, 5)]
  /\ fullScan sameAge query
     = [JsRecord (1, 5); JsRecord (2, 5); JsRecord (3, 5)]
  /\ Engine.paginate (core sameAge) 3 query <> Some (fullScan sameAge query).
Proof.
  split; [vm_compute; reflexivity|]. split; [vm_compute; reflexivity|].
  vm_compute. discriminate.
Qed.

(** C2. Primary keys of the first ten of twelve friends by the
    non-unique index [age]: friend 10 is the last entry and its indexed
    key is 110, yet the token has [lastKey] 10 and [lastPrimaryKey] 110:
    the two fields are exchanged. *)
Theorem keys_only_token_fields_exchanged :
  let query := firstPage "age" false 10 in
  let response := resolved (Engine.queryRange (core twelve) query) in
  let lastEntry := nth 9 (result response) undefined in
  let record := nth 0 (get (core twelve) tt "friends" [lastEntry]) undefined in
  Engine.useCursor (core twelve) query = false
  /\ List.length (result response) = limit query
  /\ lastEntry = JsKey 10
  /\ extractKey (tableIndexLookup (core twelve) "friends" "age") record = JsKey 110
  /\ resPageToken response = Some (LastKeyToken (JsKey 10) (JsKey 110))
  /\ resPageToken response <> Some (LastKeyToken (JsKey 110) (JsKey 10)).
Proof.
  repeat split; try (vm_compute; reflexivity).
  vm_compute. discriminate.
Qed.

(** With that token the caller's loop never comes to an end: the fallback
    seeks to a position that is not there, reports the key as passed, and
    the bulk read of the following call starts over from primary key 10
    taken as an indexed key. *)
Lemma paging_keys_by_index_never_ends (fuel : nat) :
  Engine.paginate (core twelve) fuel (firstPage "age" false 10) = None.
Proof.
  set (query := firstPage "age" false 10).
  set (resumed := withPageToken query (Some (LastKeyToken (JsKey 10) (JsKey 110)))).
  set (passed := withPageToken query (Some (LastKeyToken (JsKey 10) undefined))).
  assert (Hfirst : resolved (Engine.queryRange (core twelve) query)
                   = {| result := keysFrom 1 10;
                        resPageToken := Some (LastKeyToken (JsKey 10) (JsKey 110));
                        partial := false |})
    by (vm_compute; reflexivity).
  assert (Hresumed : resolved (Engine.queryRange (core twelve) resumed)
                     = {| result := [];
                          resPageToken := Some (LastKeyToken (JsKey 10) undefined);
                          partial := true |})
    by (vm_compute; reflexivity).
  assert (Hpassed : resolved (Engine.queryRange (core twelve) passed)
                    = {| result := keysFrom 1 10;
                         resPageToken := Some (LastKeyToken (JsKey 10) (JsKey 110));
                         partial := false |})
    by (vm_compute; reflexivity).
  assert (Hloop : forall n,
             Engine.paginate (core twelve) n resumed = None
             /\ Engine.paginate (core twelve) n passed = None).
  { induction n as [|n [IHr IHp]]; [split; reflexivity|].
    split; rewrite paginate_step.
    - rewrite Hresumed. cbn [resPageToken result].
      change (withPageToken resumed _) with passed.
      rewrite IHp. reflexivity.
    - rewrite Hpassed. cbn [resPageToken result].
      change (withPageToken passed _) with resumed.
      rewrite IHr. reflexivity. }
  destruct fuel as [|n]; [reflexivity|].
  rewrite paginate_step, Hfirst. cbn [resPageToken result].
  change (withPageToken query _) with resumed.
  rewrite (proj1 (Hloop n)). reflexivity.
Qed.

(** C3. Primary keys of the first ten of twelve friends by the unique
    index [code], which is not the primary key: the token carries a
    [lastPrimaryKey]. *)
Theorem unique_index_token_has_lastPrimaryKey :
  let query := firstPage "code" false 10 in
  let idx := tableIndexLookup (core twelve) "friends" "code" in
  let response := resolved (Engine.queryRange (core twelve) query) in
  isUnique (dbIndex idx) = true
  /\ Engine.useCursor (core twelve) query = false
  /\ List.length (result response) = limit query
  /\ exists lastKey lastPrimaryKey,
      resPageToken response = Some (LastKeyToken lastKey lastPrimaryKey)
      /\ nullish lastPrimaryKey = false.
Proof.
  repeat split; try (vm_compute; reflexivity).
  exists (JsKey 10), (JsKey 110). split; vm_compute; reflexivity.
Qed.

(** C4. Resuming after friend 1 among three friends of age 5, one record
    per page: the fallback stops on friend 2 with friend 3 still to
    come, and the token's [lastPrimaryKey] is [undefined], not the
    primary key 2 of the entry it stopped on. *)
Theorem fallback_token_misses_lastPrimaryKey :
  let query :=
    withPageToken (firstPage "age" true 1)
                  (Some (LastKeyToken (JsKey 5) (JsKey 1))) in
  Engine.queryRange (core sameAge) query
  = Engine.cursorFallback (core sameAge) query (JsKey 5)
  /\ resolved (Engine.queryRange (core sameAge) query)
     = {| result := [JsRecord (2, 5)];
          resPageToken := Some (LastKeyToken (JsKey 5) undefined);
          partial := false |}
  /\ resPageToken (resolved (Engine.queryRange (core sameAge) query))
     <> Some (LastKeyToken (JsKey 5) (JsKey 2)).
Proof.
  split; [vm_compute; reflexivity|]. split; [vm_compute; reflexivity|].
  vm_compute. discriminate.
Qed.

(** C6. On a table with three friends the layer below opens a cursor on
    the first of them, while [openCursor] of the returned core hands
    back [null]. *)
Theorem returned_core_openCursor_is_null :
  let query := firstPage "age" true 1 in
  Engine.core_openCursor (Engine.KeyRangePagingEngine (core sameAge)) query
  = Engine.ReturnsNull _
  /\ resolved (Engine.next_openCursor (core sameAge) query)
     = Some {| pending := scan sameAge query; descending := false |}
  /\ Engine.core_openCursor (Engine.KeyRangePagingEngine (core sameAge)) query
     <> Engine.ReturnsPromise (Engine.next_openCursor (core sameAge) query).
Proof. repeat split; try (vm_compute; reflexivity). discriminate. Qed.

(** C7 as stated fails: on an empty table, a query with limit 1 that
    wants a token gets an empty result and no token at all. *)
Lemma empty_range_cursor_token_counterexample :
  let query := firstPage "age" true 1 in
  let response := resolved (Engine.queryRange (core nobody) query) in
  fullScan nobody query = []
  /\ (0 < limit query)%nat
  /\ ~ (result response = []
        /\ ((exists t, resPageToken response = Some t /\ isCursorToken t = true)
            <-> wantPageToken query = true)).
Proof.
  intros query response.
  split; [reflexivity|]. split; [apply Nat.lt_0_1|].
  intros [_ [_ H]]. destruct (H eq_refl) as [t [Ht _]].
  vm_compute in Ht. discriminate Ht.
Qed.

(** *** Instances *)

Lemma reverse_selects_cursor_path_witness :
  let query := firstPageDescending "age" true 2 in
  reverse query = true
  /\ Engine.useCursor (core sameAge) query = true
  /\ existsb (@isGetAll _ _ _) (calls (Engine.queryRange (core sameAge) query)) = false
  /\ result (resolved (Engine.queryRange (core sameAge) query))
     = [JsRecord (3, 5); JsRecord (2, 5)].
Proof.
  intros query. split; [reflexivity|].
  destruct (@reverse_selects_cursor_path _ _ _ (core sameAge) query eq_refl)
    as [Huse [_ Hcalls]].
  split; [exact Huse|]. split; [exact Hcalls|].
  vm_compute. reflexivity.
Defined.

Lemma limit_zero_empty_page_witness :
  let query := firstPage "age" true 0 in
  let response := resolved (Engine.queryRange (core sameAge) query) in
  limit query = 0%nat
  /\ result response = []
  /\ resPageToken response
     = Some (CursorToken
               (Some (DBCursor {| pending := scan sameAge query;
                                  descending := false |}))).
Proof.
  intros query response.
  destruct (@limit_zero_empty_page _ _ _ (core sameAge) query eq_refl)
    as [Hres [_ [Hwant _]]].
  destruct (Hwant eq_refl) as [Htok _].
  split; [reflexivity|]. split; [exact Hres|]. exact Htok.
Defined.

Lemma bulk_limit_offset_token_witness :
  let query := firstPage "tags" false 10 in
  List.length (getAll (core twelve) query) = limit query
  /\ resPageToken (resolved (Engine.queryRange (core twelve) query))
     = Some (OffsetToken 10).
Proof.
  intros query. split; [vm_compute; reflexivity|].
  rewrite (@bulk_limit_offset_token _ _ _ (core twelve) query);
    try (vm_compute; reflexivity).
  - vm_compute. discriminate.
  - intros t Ht. vm_compute in Ht. discriminate Ht.
Defined.

Lemma fallback_passed_is_partial_witness :
  let query := lastPage "age" true 5 (LastKeyToken (JsKey 5) (JsKey 1)) in
  wantPageToken query = false
  /\ resolved (Engine.queryRange (core twoAges) query)
     = {| result := [JsRecord (2, 5)];
          resPageToken := Some (LastKeyToken (JsKey 5) undefined);
          partial := true |}.
Proof.
  intros query. split; [reflexivity|].
  apply (@fallback_passed_is_partial _ _ _ (core twoAges) query
           (JsKey 5) (JsKey 1)
           (SeekCursor {| pending := indexEntries twoAges "age";
                          descending := false |} (JsKey 5) (JsKey 1))
           [{| key := JsKey 5; primaryKey := JsKey 2; value := JsRecord (2, 5) |}]
           {| key := JsKey 6; primaryKey := JsKey 3; value := JsRecord (3, 6) |}
           []);
    try (vm_compute; reflexivity).
  - vm_compute. discriminate.
  - repeat constructor. vm_compute. discriminate.
  - vm_compute. lia.
Defined.

Lemma empty_range_no_token_witness :
  let query := firstPage "age" true 1 in
  wantPageToken query = true
  /\ fullScan nobody query = []
  /\ resolved (Engine.queryRange (core nobody) query)
     = {| result := []; resPageToken := None; partial := false |}.
Proof.
  intros query. split; [reflexivity|]. split; [reflexivity|].
  apply (@empty_range_no_token _ _ _ (core nobody) query);
    try (vm_compute; reflexivity).
  - vm_compute. discriminate.
  - intros c Hc. vm_compute in Hc. discriminate Hc.
Defined.

End Friends.


(** ** Pages, tokens and follow-up calls, for any layer below *)

Section Pages.

Context {Key Value Transaction : Type}.
Abbreviation any := (any Key Value).
Abbreviation CursorEntry := (CursorEntry Key Value).
Abbreviation Cursor := (Cursor Key Value).
Abbreviation Query := (PagableKeyRangeQuery Key Value Transaction).
Abbreviation Promise := (Promise Key Value Transaction).

Variable next : VirtualIndexCore Key Value Transaction.

(** *** The cursor iterator *)

(** The callback of the cursor path takes entries until [limit] of them
    are collected. *)
Lemma iterate_collect (query : Query) (entries : list CursorEntry) :
  forall acc,
    List.length acc < limit query ->
    Engine.iterate (Engine.collect query) entries acc
    = if limit query - List.length acc <=? List.length entries
      then (skipn (limit query - List.length acc) entries,
            acc ++ map (Engine.entryOf query)
                       (firstn (limit query - List.length acc) entries),
            Some true)
      else ([], acc ++ map (Engine.entryOf query) entries, None).
Proof.
  induction entries as [|e entries IH]; intros acc Hacc.
  - simpl. destruct (Nat.leb_spec (limit query - List.length acc) 0) as [Hle|_];
      [lia|]. rewrite app_nil_r. reflexivity.
  - cbn [Engine.iterate]. unfold Engine.collect at 1.
    rewrite length_app. cbn [List.length].
    destruct (Nat.eqb_spec (List.length acc + 1) (limit query)) as [Heq|Hne].
    + replace (limit query - List.length acc) with 1 by lia.
      simpl. reflexivity.
    + rewrite IH by (rewrite length_app; simpl; lia).
      rewrite length_app. cbn [List.length].
      replace (limit query - List.length acc)
        with (S (limit query - (List.length acc + 1))) by lia.
      cbn [Nat.leb skipn firstn map].
      destruct (limit query - (List.length acc + 1) <=? List.length entries);
        rewrite <- app_assoc; reflexivity.
Qed.

(** A cursor that does not seek is left on the entries its callback did
    not take. *)
Lemma start_settles {S R} (cursor : Cursor)
      (callback : CursorEntry -> S -> S * Engine.Action R) s :
  Engine.resumable cursor = true ->
  let settled := fst (fst (resolved (Engine.start next cursor callback s))) in
  Engine.resumable settled = true
  /\ Engine.upcoming next settled
     = fst (fst (Engine.iterate callback (Engine.upcoming next cursor) s)).
Proof.
  destruct cursor as [c | [c|] offset | c lastKey lastPrimaryKey];
    intros Hres; try discriminate Hres;
    unfold Engine.start, Engine.offsetStart; simpl.
  - rewrite resolved_andThen, resolved_dbStart. simpl. auto.
  - rewrite resolved_andThen, resolved_dbStart. simpl. auto.
  - auto.
Qed.

(** The response of the cursor path once its cursor is known. *)
Lemma cursorPath_resolved (query : Query) (cursor : Cursor) :
  limit query <> 0 ->
  resolved (Engine.openCursor next query) = Some cursor ->
  let up := Engine.upcoming next cursor in
  let settled :=
    fst (fst (resolved (Engine.start next cursor (Engine.collect query) []))) in
  resolved (Engine.cursorPath next query)
  = if (limit query <=? List.length up) && wantPageToken query
    then Engine.withToken (map (Engine.entryOf query) (firstn (limit query) up))
                          (CursorToken (Some settled))
    else Engine.onlyResult (map (Engine.entryOf query) (firstn (limit query) up)).
Proof.
  intros Hnz Hcur up settled. unfold Engine.cursorPath.
  rewrite resolved_andThen, Hcur, resolved_andThen.
  destruct (resolved_start next cursor (Engine.collect query) []) as [Hres Hstop].
  fold up in Hres, Hstop.
  rewrite iterate_collect in Hres, Hstop by (simpl; lia).
  simpl List.length in Hres, Hstop. rewrite Nat.sub_0_r in Hres, Hstop.
  subst settled.
  destruct (resolved (Engine.start next cursor _ [])) as [[cursor' result'] reached].
  simpl in Hres, Hstop. simpl fst.
  destruct (Nat.leb_spec (limit query) (List.length up)) as [Hle|Hgt];
    simpl in Hres, Hstop; subst; simpl.
  - destruct (wantPageToken query); reflexivity.
  - rewrite firstn_all2 by lia. reflexivity.
Qed.

Lemma queryRange_cursor (query : Query) :
  limit query <> 0 ->
  Engine.useCursor next query = true ->
  Engine.queryRange next query = Engine.cursorPath next query.
Proof.
  intros Hnz Huse. unfold Engine.queryRange.
  destruct (Nat.eqb_spec (limit query) 0) as [Hz|_]; [contradiction|].
  rewrite Huse. reflexivity.
Qed.

(** X1. A page of the cursor strategy holds the first [limit] entries the
    cursor has to give, in the cursor's order, is never partial, and
    carries a token, always of the [cursor] kind, exactly when one is
    wanted and the cursor had at least [limit] entries left. *)
Theorem cursor_path_page (query : Query) (cursor : Cursor) :
  limit query <> 0 ->
  Engine.useCursor next query = true ->
  resolved (Engine.openCursor next query) = Some cursor ->
  let up := Engine.upcoming next cursor in
  let response := resolved (Engine.queryRange next query) in
  result response = map (Engine.entryOf query) (firstn (limit query) up)
  /\ partial response = false
  /\ Engine.hasToken response
     = (limit query <=? List.length up) && wantPageToken query
  /\ (forall t, resPageToken response = Some t -> isCursorToken t = true).
Proof.
  intros Hnz Huse Hcur up response. subst response.
  rewrite (queryRange_cursor query Hnz Huse).
  rewrite (cursorPath_resolved query Hnz Hcur). fold up.
  destruct ((limit query <=? List.length up) && wantPageToken query); simpl.
  - repeat split. intros t Ht. injection Ht as <-. reflexivity.
  - repeat split. intros t Ht. discriminate Ht.
Qed.

(** Paging with the cursor strategy from a cursor that does not seek: the
    pages add up to the entries the cursor had to give. *)
Lemma paginate_cursor_path :
  forall (fuel : nat) (query : Query) (cursor : Cursor),
    limit query <> 0 ->
    wantPageToken query = true ->
    Engine.useCursor next query = true ->
    resolved (Engine.openCursor next query) = Some cursor ->
    Engine.resumable cursor = true ->
    List.length (Engine.upcoming next cursor) < fuel * limit query ->
    Engine.paginate next fuel query
    = Some (map (Engine.entryOf query) (Engine.upcoming next cursor)).
Proof.
  induction fuel as [|fuel IH]; intros query cursor Hnz Hwant Huse Hcur Hres Hlen;
    [simpl in Hlen; lia|].
  rewrite paginate_step, (queryRange_cursor query Hnz Huse).
  rewrite (cursorPath_resolved query Hnz Hcur), Hwant, andb_true_r.
  set (up := Engine.upcoming next cursor) in *.
  destruct (start_settles cursor (Engine.collect query) [] Hres) as [Hres' Hup'].
  fold up in Hup'. rewrite iterate_collect in Hup' by (simpl; lia).
  simpl List.length in Hup'. rewrite Nat.sub_0_r in Hup'.
  destruct (Nat.leb_spec (limit query) (List.length up)) as [Hle|Hgt].
  - simpl in Hup'. cbn [Engine.withToken resPageToken result].
    set (settled := fst (fst (resolved (Engine.start next cursor _ [])))) in *.
    rewrite (IH (withPageToken query (Some (CursorToken (Some settled)))) settled);
      try assumption; try reflexivity.
    + simpl. unfold Engine.entryOf at 2. simpl values.
      fold (Engine.entryOf query). rewrite Hup', <- map_app, firstn_skipn.
      reflexivity.
    + rewrite Hup', length_skipn. simpl limit. simpl in Hlen. lia.
  - cbn [Engine.onlyResult resPageToken result].
    rewrite firstn_all2 by lia. reflexivity.
Qed.

(** X2. Paging with the cursor strategy is complete.  For a first query
    (no inbound token) that selects the cursor strategy and wants tokens,
    the caller's loop ends within [fuel] calls as soon as [fuel * limit]
    exceeds the number of entries of the cursor the layer below opens, and
    its pages add up to exactly those entries, in the cursor's order, none
    skipped and none repeated; nothing when no cursor is opened. *)
Theorem cursor_path_pagination (fuel : nat) (query : Query) :
  let entries :=
    match openCursor next query with
    | Some c => pending c
    | None => []
    end in
  limit query <> 0 ->
  wantPageToken query = true ->
  Engine.useCursor next query = true ->
  pageToken query = None ->
  List.length entries < fuel * limit query ->
  Engine.paginate next fuel query = Some (map (Engine.entryOf query) entries).
Proof.
  intros entries Hnz Hwant Huse Htok Hlen. subst entries.
  assert (Hcur : resolved (Engine.openCursor next query)
                 = option_map (@DBCursor _ _) (openCursor next query))
    by (rewrite resolved_openCursor, Htok; reflexivity).
  destruct (openCursor next query) as [c|].
  - apply (@paginate_cursor_path fuel query (DBCursor c)); auto.
  - destruct fuel as [|fuel]; [simpl in Hlen; lia|].
    rewrite paginate_step, (queryRange_cursor query Hnz Huse).
    unfold Engine.cursorPath. rewrite resolved_andThen, Hcur. reflexivity.
Qed.

(** *** The fallback sub-protocol *)

(** The callback of the fallback takes the entries of the leading run
    that is not past [lastKey], at most [limit] of them, and reports
    [passed] only when the run ends, before the limit, on a further
    entry. *)
Lemma iterate_collectDuplicates (query : Query) (lastKey : any)
      (entries : list CursorEntry) :
  forall acc,
    List.length acc < limit query ->
    let run := Engine.duplicateRun next lastKey entries in
    let out := Engine.iterate (Engine.collectDuplicates next query lastKey) entries acc in
    snd (fst out)
    = acc ++ map (Engine.entryOf query) (firstn (limit query - List.length acc) run)
    /\ option_map (fun r => (Engine.passed r, Engine.prop_primaryKey r)) (snd out)
       = if limit query - List.length acc <=? List.length run
         then Some (false, undefined)
         else if List.length run <? List.length entries
              then Some (true, undefined)
              else None.
Proof.
  induction entries as [|e entries IH]; intros acc Hacc.
  - simpl. rewrite firstn_nil, app_nil_r.
    destruct (Nat.leb_spec (limit query - List.length acc) 0) as [Hle|_]; [lia|].
    auto.
  - cbn [Engine.iterate Engine.duplicateRun].
    destruct (cmp next (key e) lastKey >? 0)%Z eqn:Hpast.
    + assert (Hcb : Engine.collectDuplicates next query lastKey e acc
                    = (acc, Engine.Stop {| Engine.passed := true;
                                           Engine.prop_lastPrimaryKey := undefined;
                                           Engine.prop_primaryKey := undefined |}))
        by (unfold Engine.collectDuplicates; rewrite Hpast; reflexivity).
      rewrite Hcb. simpl. rewrite firstn_nil, app_nil_r.
      destruct (Nat.leb_spec (limit query - List.length acc) 0) as [Hle|_]; [lia|].
      auto.
    + destruct (Nat.ltb_spec (List.length (acc ++ [Engine.entryOf query e]))
                             (limit query)) as [Hlt|Hge];
        rewrite length_app in *; cbn [List.length] in *.
      * assert (Hcb : Engine.collectDuplicates next query lastKey e acc
                      = (acc ++ [Engine.entryOf query e], Engine.Continue _))
          by (unfold Engine.collectDuplicates; rewrite Hpast, length_app;
              cbn [List.length];
              destruct (Nat.ltb_spec (List.length acc + 1) (limit query));
              [reflexivity|lia]).
        rewrite Hcb.
        destruct (IH (acc ++ [Engine.entryOf query e])) as [Hres Hstop];
          [rewrite length_app; simpl; lia|].
        rewrite length_app in Hres, Hstop. cbn [List.length] in Hres, Hstop.
        replace (limit query - List.length acc)
          with (S (limit query - (List.length acc + 1))) by lia.
        cbn [firstn map]. split.
        -- rewrite Hres, <- app_assoc. reflexivity.
        -- exact Hstop.
      * assert (Hcb : Engine.collectDuplicates next query lastKey e acc
                      = (acc ++ [Engine.entryOf query e],
                         Engine.Stop {| Engine.passed := false;
                                        Engine.prop_lastPrimaryKey := primaryKey e;
                                        Engine.prop_primaryKey := undefined |}))
          by (unfold Engine.collectDuplicates; rewrite Hpast, length_app;
              cbn [List.length];
              destruct (Nat.ltb_spec (List.length acc + 1) (limit query));
              [lia|reflexivity]).
        rewrite Hcb.
        replace (limit query - List.length acc) with 1 by lia.
        simpl. auto.
Qed.

(** The response of the fallback once its cursor is known. *)
Lemma cursorFallback_resolved (query : Query) (lastKey : any) (cursor : Cursor) :
  limit query <> 0 ->
  resolved (Engine.openCursor next query) = Some cursor ->
  let up := Engine.upcoming next cursor in
  let run := Engine.duplicateRun next lastKey up in
  let page := map (Engine.entryOf query) (firstn (limit query) run) in
  resolved (Engine.cursorFallback next query lastKey)
  = if limit query <=? List.length run
    then (if wantPageToken query
          then Engine.withToken page (LastKeyToken lastKey undefined)
          else Engine.onlyResult page)
    else if List.length run <? List.length up
         then {| result := page;
                 resPageToken := Some (LastKeyToken lastKey undefined);
                 partial := true |}
         else Engine.onlyResult page.
Proof.
  intros Hnz Hcur up run page. unfold Engine.cursorFallback.
  rewrite resolved_andThen, Hcur, resolved_andThen.
  destruct (resolved_start next cursor (Engine.collectDuplicates next query lastKey) [])
    as [Hres Hstop].
  fold up in Hres, Hstop.
  destruct (iterate_collectDuplicates query lastKey up [])
    as [Hpage Hout]; [simpl; lia|].
  fold run in Hpage, Hout. simpl List.length in Hpage, Hout.
  rewrite Nat.sub_0_r in Hpage, Hout. simpl app in Hpage. fold page in Hpage.
  rewrite <- Hres in Hpage. rewrite <- Hstop in Hout.
  destruct (resolved (Engine.start next cursor _ [])) as [[cursor' result'] res].
  simpl in Hpage, Hout. subst result'.
  destruct (limit query <=? List.length run).
  - destruct res as [res|]; [|discriminate Hout].
    simpl in Hout. injection Hout as Hpassed Hkey.
    rewrite Hpassed, Hkey. destruct (wantPageToken query); reflexivity.
  - destruct (List.length run <? List.length up).
    + destruct res as [res|]; [|discriminate Hout].
      simpl in Hout. injection Hout as Hpassed Hkey.
      rewrite Hpassed. reflexivity.
    + destruct res as [res|]; [discriminate Hout|]. reflexivity.
Qed.

(** X3. A page of the fallback sub-protocol holds the entries of the
    cursor's leading run that are not past [lastKey], at most [limit] of
    them; it is partial exactly when that run ends before the limit on a
    further entry; and it carries a token, always a [lastKey] token with
    the inbound [lastKey], exactly when it is partial, or when the limit
    was reached and a token is wanted. *)
Theorem fallback_page (query : Query) (lastKey lastPrimaryKey : any)
        (cursor : Cursor) :
  limit query <> 0 ->
  Engine.useCursor next query = false ->
  pageToken query = Some (LastKeyToken lastKey lastPrimaryKey) ->
  nullish lastPrimaryKey = false ->
  resolved (Engine.openCursor next query) = Some cursor ->
  let up := Engine.upcoming next cursor in
  let run := Engine.duplicateRun next lastKey up in
  let response := resolved (Engine.queryRange next query) in
  result response = map (Engine.entryOf query) (firstn (limit query) run)
  /\ partial response
     = (List.length run <? limit query) && (List.length run <? List.length up)
  /\ Engine.hasToken response
     = partial response || ((limit query <=? List.length run) && wantPageToken query)
  /\ (forall t, resPageToken response = Some t ->
                isLastKeyToken t = true /\ tokenLastKey t = lastKey).
Proof.
  intros Hnz Huse Htok Hlpk Hcur up run response. subst response.
  rewrite (@queryRange_fallback _ _ _ next query lastKey lastPrimaryKey Hnz Huse Htok Hlpk).
  rewrite (cursorFallback_resolved query lastKey Hnz Hcur). fold up. fold run.
  destruct (Nat.leb_spec (limit query) (List.length run)) as [Hle|Hgt];
    destruct (Nat.ltb_spec (List.length run) (limit query)) as [Hlt|Hge];
    try lia.
  - destruct (wantPageToken query); simpl;
      (split; [reflexivity|]); (split; [reflexivity|]); (split; [reflexivity|]);
      intros t Ht; try discriminate Ht; injection Ht as <-; split; reflexivity.
  - destruct (List.length run <? List.length up); simpl;
      (split; [reflexivity|]); (split; [reflexivity|]); (split; [reflexivity|]);
      intros t Ht; try discriminate Ht; injection Ht as <-; split; reflexivity.
Qed.

(** *** The four ways through [queryRange] *)

Lemma queryRange_cases (query : Query) :
  limit query = 0
  \/ (limit query <> 0 /\ Engine.useCursor next query = true
      /\ Engine.queryRange next query = Engine.cursorPath next query)
  \/ (limit query <> 0 /\ Engine.useCursor next query = false
      /\ exists lastKey lastPrimaryKey,
          pageToken query = Some (LastKeyToken lastKey lastPrimaryKey)
          /\ nullish lastPrimaryKey = false
          /\ Engine.queryRange next query = Engine.cursorFallback next query lastKey)
  \/ (limit query <> 0 /\ Engine.useCursor next query = false
      /\ (forall t, pageToken query = Some t -> nullish (tokenLastPrimaryKey t) = true)
      /\ Engine.queryRange next query = Engine.bulkScan next (Engine.bulkQuery query)).
Proof.
  destruct (Nat.eq_dec (limit query) 0) as [Hz|Hnz]; [left; exact Hz|right].
  destruct (Engine.useCursor next query) eqn:Huse.
  - left. auto using queryRange_cursor.
  - right. destruct (pageToken query) as [t|] eqn:Htok.
    + destruct (nullish (tokenLastPrimaryKey t)) eqn:Hlpk.
      * right. repeat split; try assumption.
        -- intros t' Ht'. injection Ht' as <-. exact Hlpk.
        -- apply queryRange_bulk; try assumption.
           intros t' Ht'. rewrite Htok in Ht'. injection Ht' as <-. exact Hlpk.
      * left. destruct t as [c | offset | lastKey lastPrimaryKey];
          try discriminate Hlpk.
        repeat split; try assumption. exists lastKey, lastPrimaryKey.
        repeat split; try assumption.
        apply (@queryRange_fallback _ _ _ next query lastKey lastPrimaryKey);
          assumption.
    + right. repeat split; try assumption.
      * intros t Ht. discriminate Ht.
      * apply queryRange_bulk; try assumption.
        intros t Ht. rewrite Htok in Ht. discriminate Ht.
Qed.

Lemma queryRange_limit_zero (query : Query) :
  limit query = 0 ->
  Engine.queryRange next query
  = if wantPageToken query
    then andThen (Engine.openCursor next query)
                 (fun cursor => resolve {| result := [];
                                           resPageToken := Some (CursorToken cursor);
                                           partial := false |})
    else resolve (Engine.onlyResult []).
Proof. intros Hz. unfold Engine.queryRange. rewrite Hz. reflexivity. Qed.

Lemma cursorPath_none (query : Query) :
  resolved (Engine.openCursor next query) = None ->
  resolved (Engine.cursorPath next query) = Engine.onlyResult [].
Proof.
  intros Hcur. unfold Engine.cursorPath. rewrite resolved_andThen, Hcur.
  reflexivity.
Qed.

Lemma cursorFallback_none (query : Query) (lastKey : any) :
  resolved (Engine.openCursor next query) = None ->
  resolved (Engine.cursorFallback next query lastKey) = Engine.onlyResult [].
Proof.
  intros Hcur. unfold Engine.cursorFallback. rewrite resolved_andThen, Hcur.
  reflexivity.
Qed.

(** *** The bulk scan *)

Lemma bulkScan_response (query : Query) :
  let response := resolved (Engine.bulkScan next query) in
  result response = getAll next query
  /\ partial response = false
  /\ (wantPageToken query = false -> resPageToken response = None)
  /\ (List.length (getAll next query) < limit query -> resPageToken response = None)
  /\ (forall t, resPageToken response = Some t -> isCursorToken t = false).
Proof.
  unfold Engine.bulkScan. rewrite resolved_andThen.
  change (resolved (Engine.next_getAll next query)) with (getAll next query).
  destruct (Nat.ltb_spec (List.length (getAll next query)) (limit query)) as [Hlt|Hge].
  - simpl. repeat split; try reflexivity. intros t Ht. discriminate Ht.
  - destruct (multiEntry _ || _); destruct (wantPageToken query); simpl;
      try (repeat split; try reflexivity; try discriminate; try lia;
           intros t Ht; try discriminate Ht; injection Ht as <-; reflexivity).
    destruct (values query); [|destruct (isPrimaryKey _)]; simpl;
      try rewrite resolved_andThen; simpl;
      (repeat split; try reflexivity; try discriminate; try lia;
       intros t Ht; injection Ht as <-; reflexivity).
Qed.

Lemma bulkScan_calls (query : Query) :
  let idx := tableIndexLookup next (table query) (index query) in
  calls (Engine.bulkScan next query)
  = CallGetAll query
    :: (if (limit query <=? List.length (getAll next query))
           && negb (multiEntry (dbIndex idx) || (values query && (keyLength idx =? 0)))
           && wantPageToken query
           && negb (values query)
           && negb (isPrimaryKey (dbIndex idx))
        then [CallGet (trans query) (table query)
                      [nth (limit query - 1) (getAll next query) undefined]]
        else []).
Proof.
  intros idx. unfold Engine.bulkScan. fold idx. rewrite calls_andThen.
  change (resolved (Engine.next_getAll next query)) with (getAll next query).
  change (calls (Engine.next_getAll next query)) with [CallGetAll query].
  simpl app. f_equal.
  destruct (Nat.ltb_spec (List.length (getAll next query)) (limit query)) as [Hlt|Hge];
    destruct (Nat.leb_spec (limit query) (List.length (getAll next query))) as [Hle|Hgt];
    try lia; [reflexivity|].
  destruct (multiEntry (dbIndex idx) || _); destruct (wantPageToken query);
    try reflexivity.
  destruct (values query); [reflexivity|].
  destruct (isPrimaryKey (dbIndex idx)); reflexivity.
Qed.

(** *** What every response obeys *)

(** X4. A partial response always carries a token: it only comes from the
    fallback sub-protocol, its token is a [lastKey] token with the inbound
    [lastKey] and no [lastPrimaryKey], and its result is shorter than
    [limit]. *)
Theorem partial_page_carries_token (query : Query) :
  let response := resolved (Engine.queryRange next query) in
  partial response = true ->
  exists lastKey lastPrimaryKey,
    pageToken query = Some (LastKeyToken lastKey lastPrimaryKey)
    /\ nullish lastPrimaryKey = false
    /\ resPageToken response = Some (LastKeyToken lastKey undefined)
    /\ List.length (result response) < limit query.
Proof.
  intros response Hp. subst response.
  destruct (queryRange_cases query)
    as [Hz | [[Hnz [Huse Heq]]
             | [[Hnz [Huse [lk [lpk [Htok [Hlpk Heq]]]]]]
               | [Hnz [Huse [Hnolpk Heq]]]]]].
  - rewrite (queryRange_limit_zero query Hz) in Hp.
    destruct (wantPageToken query); [rewrite resolved_andThen in Hp|];
      discriminate Hp.
  - rewrite Heq in Hp.
    destruct (resolved (Engine.openCursor next query)) as [cursor|] eqn:Hcur.
    + rewrite (cursorPath_resolved query Hnz Hcur) in Hp.
      destruct (_ && _) in Hp; discriminate Hp.
    + rewrite (cursorPath_none query Hcur) in Hp. discriminate Hp.
  - rewrite Heq in *. exists lk, lpk.
    destruct (resolved (Engine.openCursor next query)) as [cursor|] eqn:Hcur.
    + rewrite (cursorFallback_resolved query lk Hnz Hcur) in *.
      destruct (Nat.leb_spec (limit query)
                  (List.length (Engine.duplicateRun next lk (Engine.upcoming next cursor))))
        as [Hle|Hgt].
      * destruct (wantPageToken query); discriminate Hp.
      * destruct (_ <? _); [|discriminate Hp]. simpl.
        repeat split; try assumption.
        rewrite length_map, length_firstn. lia.
    + rewrite (cursorFallback_none query lk Hcur) in Hp. discriminate Hp.
  - rewrite Heq in Hp.
    destruct (bulkScan_response (Engine.bulkQuery query)) as [_ [Hpf _]].
    rewrite Hpf in Hp. discriminate Hp.
Qed.

(** X5. A caller that wants no token gets none, except with a partial
    response. *)
Theorem unwanted_token_only_when_partial (query : Query) :
  wantPageToken query = false ->
  let response := resolved (Engine.queryRange next query) in
  resPageToken response = None \/ partial response = true.
Proof.
  intros Hwant response. subst response.
  destruct (queryRange_cases query)
    as [Hz | [[Hnz [Huse Heq]]
             | [[Hnz [Huse [lk [lpk [Htok [Hlpk Heq]]]]]]
               | [Hnz [Huse [Hnolpk Heq]]]]]].
  - rewrite (queryRange_limit_zero query Hz), Hwant. left. reflexivity.
  - rewrite Heq.
    destruct (resolved (Engine.openCursor next query)) as [cursor|] eqn:Hcur.
    + rewrite (cursorPath_resolved query Hnz Hcur), Hwant, andb_false_r.
      left. reflexivity.
    + rewrite (cursorPath_none query Hcur). left. reflexivity.
  - rewrite Heq.
    destruct (resolved (Engine.openCursor next query)) as [cursor|] eqn:Hcur.
    + rewrite (cursorFallback_resolved query lk Hnz Hcur), Hwant.
      destruct (_ <=? _); [left; reflexivity|].
      destruct (_ <? _); [right|left]; reflexivity.
    + rewrite (cursorFallback_none query lk Hcur). left. reflexivity.
  - rewrite Heq. left.
    destruct (bulkScan_response (Engine.bulkQuery query)) as [_ [_ [Hno _]]].
    apply Hno. unfold Engine.bulkQuery.
    destruct (pageToken query); exact Hwant.
Qed.

Lemma response_token_kind (query : Query) (t : KeyRangePageToken Key Value) :
  limit query <> 0 ->
  resPageToken (resolved (Engine.queryRange next query)) = Some t ->
  (Engine.useCursor next query = true /\ isCursorToken t = true)
  \/ (Engine.useCursor next query = false /\ isCursorToken t = false).
Proof.
  intros Hnz' Ht.
  assert (H : isCursorToken t = Engine.useCursor next query).
  {
  destruct (queryRange_cases query)
    as [Hz | [[Hnz [Huse Heq]]
             | [[Hnz [Huse [lk [lpk [Htok [Hlpk Heq]]]]]]
               | [Hnz [Huse [Hnolpk Heq]]]]]]; [contradiction| | |];
    rewrite Heq in Ht; rewrite Huse.
  - destruct (resolved (Engine.openCursor next query)) as [cursor|] eqn:Hcur.
    + rewrite (cursorPath_resolved query Hnz Hcur) in Ht.
      destruct (_ && _) in Ht; [|discriminate Ht].
      injection Ht as <-. reflexivity.
    + rewrite (cursorPath_none query Hcur) in Ht. discriminate Ht.
  - destruct (resolved (Engine.openCursor next query)) as [cursor|] eqn:Hcur.
    + rewrite (cursorFallback_resolved query lk Hnz Hcur) in Ht.
      destruct (_ <=? _) in Ht;
        [destruct (wantPageToken query) in Ht|destruct (_ <? _) in Ht];
        try discriminate Ht; injection Ht as <-; reflexivity.
    + rewrite (cursorFallback_none query lk Hcur) in Ht. discriminate Ht.
  - destruct (bulkScan_response (Engine.bulkQuery query)) as [_ [_ [_ [_ Hkind]]]].
    exact (Hkind t Ht).
  }
  destruct (Engine.useCursor next query); auto.
Qed.

(** X6. With a positive limit, the token of a response is of the [cursor]
    kind exactly when the call selected the cursor strategy. *)
Theorem token_kind_follows_strategy (query : Query) (t : KeyRangePageToken Key Value) :
  limit query <> 0 ->
  resPageToken (resolved (Engine.queryRange next query)) = Some t ->
  isCursorToken t = Engine.useCursor next query.
Proof.
  intros Hnz Ht.
  destruct (response_token_kind query Hnz Ht) as [[-> ->] | [-> ->]]; reflexivity.
Qed.

(** X7. The follow-up call, made with the token of a response, selects
    the cursor strategy exactly when this call did or the token is not a
    [lastKey] token: paging stays with the cursor once it is there, moves
    to it after an [offset] token, and stays with the bulk read after a
    [lastKey] token. *)
Theorem follow_up_strategy (query : Query) (t : KeyRangePageToken Key Value) :
  limit query <> 0 ->
  resPageToken (resolved (Engine.queryRange next query)) = Some t ->
  Engine.useCursor next (withPageToken query (Some t))
  = Engine.useCursor next query || negb (isLastKeyToken t).
Proof.
  intros Hnz Ht.
  assert (Hkind : isCursorToken t = Engine.useCursor next query)
    by (destruct (response_token_kind query Hnz Ht) as [[-> ->] | [-> ->]];
        reflexivity).
  unfold Engine.useCursor in *. simpl.
  destruct t as [c | offset | lastKey lastPrimaryKey]; simpl in *.
  - rewrite <- Hkind. reflexivity.
  - rewrite orb_true_r. reflexivity.
  - rewrite orb_false_r. symmetry in Hkind.
    repeat (apply orb_false_iff in Hkind; destruct Hkind as [Hkind ?]).
    repeat match goal with H : _ = false |- _ => rewrite H end.
    reflexivity.
Qed.

(** X8. A page the engine collects itself, without a bulk read of the
    layer below, never holds more than [limit] entries. *)
Theorem collected_page_within_limit (query : Query) :
  existsb (@isGetAll _ _ _) (calls (Engine.queryRange next query)) = false ->
  List.length (result (resolved (Engine.queryRange next query))) <= limit query.
Proof.
  intros Hcalls.
  destruct (queryRange_cases query)
    as [Hz | [[Hnz [Huse Heq]]
             | [[Hnz [Huse [lk [lpk [Htok [Hlpk Heq]]]]]]
               | [Hnz [Huse [Hnolpk Heq]]]]]].
  - rewrite (queryRange_limit_zero query Hz).
    destruct (wantPageToken query); [rewrite resolved_andThen|]; simpl; lia.
  - rewrite Heq.
    destruct (resolved (Engine.openCursor next query)) as [cursor|] eqn:Hcur.
    + rewrite (cursorPath_resolved query Hnz Hcur).
      destruct (_ && _); simpl; rewrite length_map; apply firstn_le_length.
    + rewrite (cursorPath_none query Hcur). simpl. lia.
  - rewrite Heq.
    destruct (resolved (Engine.openCursor next query)) as [cursor|] eqn:Hcur.
    + rewrite (cursorFallback_resolved query lk Hnz Hcur).
      destruct (_ <=? _); [destruct (wantPageToken query)|destruct (_ <? _)];
        simpl; rewrite length_map; apply firstn_le_length.
    + rewrite (cursorFallback_none query lk Hcur). simpl. lia.
  - rewrite Heq, bulkScan_calls in Hcalls. discriminate Hcalls.
Qed.

(** *** What a call asks of the layer below *)

Lemma cursorPath_calls (query : Query) :
  exists starts,
    calls (Engine.cursorPath next query)
    = calls (Engine.openCursor next query) ++ starts
    /\ forallb (@isStart _ _ _) starts = true.
Proof.
  unfold Engine.cursorPath. rewrite calls_andThen.
  destruct (resolved (Engine.openCursor next query)) as [cursor|].
  - rewrite calls_andThen.
    exists (calls (Engine.start next cursor (Engine.collect query) [])).
    split; [|apply calls_start].
    destruct (resolved (Engine.start next cursor _ [])) as [[c r] [[|]|]];
      try destruct (wantPageToken query); simpl; rewrite app_nil_r; reflexivity.
  - exists []. split; reflexivity.
Qed.

Lemma cursorFallback_calls (query : Query) (lastKey : any) :
  exists starts,
    calls (Engine.cursorFallback next query lastKey)
    = calls (Engine.openCursor next query) ++ starts
    /\ forallb (@isStart _ _ _) starts = true.
Proof.
  unfold Engine.cursorFallback. rewrite calls_andThen.
  destruct (resolved (Engine.openCursor next query)) as [cursor|].
  - rewrite calls_andThen.
    exists (calls (Engine.start next cursor (Engine.collectDuplicates next query lastKey) [])).
    split; [|apply calls_start].
    destruct (resolved (Engine.start next cursor _ [])) as [[c r] [res|]];
      [destruct (Engine.passed res); [|destruct (wantPageToken query)]|];
      simpl; rewrite app_nil_r; reflexivity.
  - exists []. split; reflexivity.
Qed.

Lemma withRange_same (query : Query) : withRange query (range query) = query.
Proof. destruct query; reflexivity. Qed.

Lemma cursorQuery_range (query : Query) :
  exists r, Engine.cursorQuery query = withRange query r.
Proof.
  unfold Engine.cursorQuery.
  destruct (pageToken query) as [[c | offset | lastKey lastPrimaryKey]|];
    try (exists (range query); symmetry; apply withRange_same).
  eexists. reflexivity.
Qed.

Lemma bulkQuery_range (query : Query) :
  exists r, Engine.bulkQuery query = withRange query r.
Proof.
  unfold Engine.bulkQuery, Engine.afterLastKey.
  destruct (pageToken query) as [t|].
  - eexists. reflexivity.
  - exists (range query). symmetry. apply withRange_same.
Qed.

Lemma starts_forward (query : Query) (starts : list (Call Key Value Transaction)) :
  forallb (@isStart _ _ _) starts = true ->
  Forall (Engine.forwards query) starts.
Proof.
  induction starts as [|c starts IH]; intros H; constructor.
  - simpl in H. apply andb_true_iff in H as [Hc _].
    destruct c; try discriminate Hc. exact I.
  - apply IH. simpl in H. apply andb_true_iff in H as [_ H]. exact H.
Qed.

Lemma starts_read_no_range (starts : list (Call Key Value Transaction)) :
  forallb (@isStart _ _ _) starts = true ->
  filter (@Engine.isRangeRead _ _ _) starts = [].
Proof.
  induction starts as [|c starts IH]; intros H; [reflexivity|].
  simpl in H. apply andb_true_iff in H as [Hc H].
  destruct c; try discriminate Hc. simpl. auto.
Qed.

Lemma openCursor_forwards (query : Query) :
  Forall (Engine.forwards query) (calls (Engine.openCursor next query)).
Proof.
  rewrite calls_openCursor.
  destruct (cursorQuery_range query) as [r Hr].
  destruct (pageToken query) as [[c | offset | lastKey lastPrimaryKey]|];
    repeat constructor; exists r; exact Hr.
Qed.

(** X9. A call that selects the cursor strategy (an inbound [cursor] or
    [offset] token, [reverse], [unique], an index of key length 0, or
    fewer than ten keys of an index that is not the primary key) never
    performs a bulk read, whatever its limit. *)
Theorem cursor_strategy_never_bulk_reads (query : Query) :
  Engine.useCursor next query = true ->
  existsb (@isGetAll _ _ _) (calls (Engine.queryRange next query)) = false.
Proof.
  intros Huse.
  destruct (Nat.eq_dec (limit query) 0) as [Hz|Hnz].
  - rewrite (queryRange_limit_zero query Hz).
    destruct (wantPageToken query); [|reflexivity].
    rewrite calls_andThen, existsb_app, openCursor_no_getAll. reflexivity.
  - rewrite (queryRange_cursor query Hnz Huse). apply cursorPath_no_getAll.
Qed.

(** X10. On the bulk-scan path the engine opens and starts no cursor: it
    makes one bulk read, on the query with the range moved past the
    token's [lastKey], and at most one point lookup after it, of the last
    entry read, and only to build a wanted token for keys of an index
    that is neither multi-valued nor the primary key. *)
Theorem bulk_path_reads (query : Query) :
  let idx := tableIndexLookup next (table query) (index query) in
  let read := getAll next (Engine.bulkQuery query) in
  limit query <> 0 ->
  Engine.useCursor next query = false ->
  (forall t, pageToken query = Some t -> nullish (tokenLastPrimaryKey t) = true) ->
  exists lookups,
    calls (Engine.queryRange next query)
    = CallGetAll (Engine.bulkQuery query) :: lookups
    /\ (lookups = []
        \/ (lookups = [CallGet (trans query) (table query)
                               [nth (limit query - 1) read undefined]]
            /\ limit query <= List.length read
            /\ wantPageToken query = true
            /\ values query = false
            /\ multiEntry (dbIndex idx) = false
            /\ isPrimaryKey (dbIndex idx) = false)).
Proof.
  intros idx read Hnz Huse Hnolpk.
  rewrite (queryRange_bulk next query Hnz Huse Hnolpk), bulkScan_calls.
  assert (Hframe : trans (Engine.bulkQuery query) = trans query
                   /\ table (Engine.bulkQuery query) = table query
                   /\ index (Engine.bulkQuery query) = index query
                   /\ limit (Engine.bulkQuery query) = limit query
                   /\ values (Engine.bulkQuery query) = values query
                   /\ wantPageToken (Engine.bulkQuery query) = wantPageToken query)
    by (unfold Engine.bulkQuery; destruct (pageToken query); repeat split).
  destruct Hframe as [-> [-> [-> [-> [-> ->]]]]]. fold idx. fold read.
  eexists. split; [reflexivity|].
  destruct (Nat.leb_spec (limit query) (List.length read)) as [Hle|Hgt];
    [|left; reflexivity].
  destruct (multiEntry (dbIndex idx)); [left; reflexivity|].
  destruct (values query); [rewrite !andb_false_r; left; reflexivity|].
  destruct (wantPageToken query); [|left; reflexivity].
  destruct (isPrimaryKey (dbIndex idx)); [left; reflexivity|].
  right. simpl. repeat split. exact Hle.
Qed.

(** X11. Whatever the engine asks of the layer below, it asks on behalf
    of the caller's query: a cursor is opened and a bulk read is made on
    the caller's query with at most the range changed, and a point lookup
    is made in the caller's table and transaction. *)
Theorem calls_forward_the_query (query : Query) :
  Forall (Engine.forwards query) (calls (Engine.queryRange next query)).
Proof.
  destruct (queryRange_cases query)
    as [Hz | [[Hnz [Huse Heq]]
             | [[Hnz [Huse [lk [lpk [Htok [Hlpk Heq]]]]]]
               | [Hnz [Huse [Hnolpk Heq]]]]]].
  - rewrite (queryRange_limit_zero query Hz).
    destruct (wantPageToken query); [|constructor].
    rewrite calls_andThen. simpl. rewrite app_nil_r. apply openCursor_forwards.
  - rewrite Heq. destruct (cursorPath_calls query) as [starts [-> Hstarts]].
    apply Forall_app. split; [apply openCursor_forwards|].
    apply starts_forward, Hstarts.
  - rewrite Heq. destruct (cursorFallback_calls query lk) as [starts [-> Hstarts]].
    apply Forall_app. split; [apply openCursor_forwards|].
    apply starts_forward, Hstarts.
  - rewrite Heq, bulkScan_calls.
    destruct (bulkQuery_range query) as [r Hr]. rewrite Hr.
    constructor; [exists r; reflexivity|].
    destruct (_ && _); repeat constructor.
Qed.

(** X12. A call makes exactly one range read on the layer below (a cursor
    opened or a bulk read), and none at all when it resumes the cursor of
    an inbound [cursor] token or when the limit is 0 and no token is
    wanted. *)
Theorem one_range_read (query : Query) :
  List.length (filter (@Engine.isRangeRead _ _ _) (calls (Engine.queryRange next query)))
  = if ((limit query =? 0) && negb (wantPageToken query))
       || match pageToken query with
          | Some t => isCursorToken t
          | None => false
          end
    then 0 else 1.
Proof.
  assert (Hopen : List.length (filter (@Engine.isRangeRead _ _ _)
                                      (calls (Engine.openCursor next query)))
                  = if match pageToken query with
                       | Some t => isCursorToken t
                       | None => false
                       end then 0 else 1).
  { rewrite calls_openCursor.
    destruct (pageToken query) as [[c | offset | lastKey lastPrimaryKey]|];
      reflexivity. }
  destruct (queryRange_cases query)
    as [Hz | [[Hnz [Huse Heq]]
             | [[Hnz [Huse [lk [lpk [Htok [Hlpk Heq]]]]]]
               | [Hnz [Huse [Hnolpk Heq]]]]]].
  - rewrite (queryRange_limit_zero query Hz), Hz. simpl.
    destruct (wantPageToken query); [|reflexivity].
    rewrite calls_andThen. simpl. rewrite app_nil_r. exact Hopen.
  - rewrite Heq. destruct (cursorPath_calls query) as [starts [-> Hstarts]].
    rewrite filter_app, (starts_read_no_range starts Hstarts), app_nil_r, Hopen.
    destruct (Nat.eqb_spec (limit query) 0) as [Hz|_]; [contradiction|].
    reflexivity.
  - rewrite Heq. destruct (cursorFallback_calls query lk) as [starts [-> Hstarts]].
    rewrite filter_app, (starts_read_no_range starts Hstarts), app_nil_r, Hopen.
    destruct (Nat.eqb_spec (limit query) 0) as [Hz|_]; [contradiction|].
    reflexivity.
  - rewrite Heq, bulkScan_calls.
    destruct (Nat.eqb_spec (limit query) 0) as [Hz|_]; [contradiction|].
    assert (Htok : match pageToken query with
                   | Some t => isCursorToken t
                   | None => false
                   end = false).
    { unfold Engine.useCursor in Huse.
      destruct (pageToken query) as [[c | offset | lastKey lastPrimaryKey]|];
        try reflexivity; discriminate Huse. }
    rewrite Htok. simpl. destruct (_ && _); reflexivity.
Qed.

(** *** From a page of the bulk scan to the follow-up call *)

Lemma useCursor_after_lastKey (query : Query) (lastKey lastPrimaryKey : any) :
  Engine.useCursor next query = false ->
  Engine.useCursor next
    (withPageToken query (Some (LastKeyToken lastKey lastPrimaryKey))) = false.
Proof.
  intros Huse. unfold Engine.useCursor in *. simpl.
  repeat (apply orb_false_iff in Huse; destruct Huse as [Huse ?]).
  repeat match goal with H : _ = false |- _ => rewrite H end.
  reflexivity.
Qed.

Lemma useCursor_false_shape (query : Query) :
  Engine.useCursor next query = false ->
  reverse query = false
  /\ (keyLength (tableIndexLookup next (table query) (index query)) =? 0) = false.
Proof.
  intros Huse. unfold Engine.useCursor in Huse.
  repeat (apply orb_false_iff in Huse; destruct Huse as [Huse ?]).
  auto.
Qed.

Lemma bulkQuery_frame (query : Query) :
  trans (Engine.bulkQuery query) = trans query
  /\ table (Engine.bulkQuery query) = table query
  /\ index (Engine.bulkQuery query) = index query
  /\ limit (Engine.bulkQuery query) = limit query
  /\ values (Engine.bulkQuery query) = values query
  /\ wantPageToken (Engine.bulkQuery query) = wantPageToken query.
Proof. unfold Engine.bulkQuery. destruct (pageToken query); repeat split. Qed.

Lemma queryRange_minimal_token (query : Query) :
  let idx := tableIndexLookup next (table query) (index query) in
  let read := getAll next (Engine.bulkQuery query) in
  let lastEntry := nth (limit query - 1) read undefined in
  limit query <> 0 ->
  Engine.useCursor next query = false ->
  (forall t, pageToken query = Some t -> nullish (tokenLastPrimaryKey t) = true) ->
  limit query <= List.length read ->
  wantPageToken query = true ->
  multiEntry (dbIndex idx) = false ->
  (values query = true /\ isUnique (dbIndex idx) = true)
  \/ (values query = false /\ isPrimaryKey (dbIndex idx) = true) ->
  resolved (Engine.queryRange next query)
  = Engine.withToken read
      (LastKeyToken (if values query then extractKey idx lastEntry else lastEntry)
                    (if values query then null else undefined)).
Proof.
  intros idx read lastEntry Hnz Huse Hnolpk Hlen Hwant Hmulti Hcase.
  destruct (useCursor_false_shape query Huse) as [_ Hkl]. fold idx in Hkl.
  rewrite (queryRange_bulk next query Hnz Huse Hnolpk).
  unfold Engine.bulkScan. rewrite resolved_andThen.
  change (resolved (Engine.next_getAll next (Engine.bulkQuery query))) with read.
  destruct (bulkQuery_frame query) as [-> [-> [-> [-> [-> ->]]]]]. fold idx.
  destruct (Nat.ltb_spec (List.length read) (limit query)) as [Hlt|_]; [lia|].
  rewrite Hmulti, Hkl, Hwant, andb_false_r. subst lastEntry.
  destruct Hcase as [[Hvalues Huniq] | [Hvalues Hprimary]]; rewrite Hvalues.
  - rewrite Huniq. reflexivity.
  - rewrite Hprimary. reflexivity.
Qed.

(** X13. When a full page of the bulk scan is read by values on a unique
    index, or by keys on the primary-key index, its token holds the key
    of the last entry (extracted from the record, or the primary key
    itself) and nothing to break ties, and the follow-up call is again a
    single bulk scan, of the range that starts strictly past that key and
    keeps the caller's upper bound. *)
Theorem lastKey_follow_up_reads_past_last_entry (query : Query) :
  let idx := tableIndexLookup next (table query) (index query) in
  let read := getAll next (Engine.bulkQuery query) in
  let lastEntry := nth (limit query - 1) read undefined in
  let lastKey := if values query then extractKey idx lastEntry else lastEntry in
  limit query <> 0 ->
  Engine.useCursor next query = false ->
  (forall t, pageToken query = Some t -> nullish (tokenLastPrimaryKey t) = true) ->
  limit query <= List.length read ->
  wantPageToken query = true ->
  multiEntry (dbIndex idx) = false ->
  (values query = true /\ isUnique (dbIndex idx) = true)
  \/ (values query = false /\ isPrimaryKey (dbIndex idx) = true) ->
  exists lastPrimaryKey,
    nullish lastPrimaryKey = true
    /\ resPageToken (resolved (Engine.queryRange next query))
       = Some (LastKeyToken lastKey lastPrimaryKey)
    /\ let follow :=
         withPageToken query (Some (LastKeyToken lastKey lastPrimaryKey)) in
       Engine.queryRange next follow
       = Engine.bulkScan next
           (withRange follow {| lower := lastKey; lowerOpen := true;
                                upper := upper (range query);
                                upperOpen := upperOpen (range query) |}).
Proof.
  intros idx read lastEntry lastKey Hnz Huse Hnolpk Hlen Hwant Hmulti Hcase.
  destruct (useCursor_false_shape query Huse) as [_ Hkl]. fold idx in Hkl.
  assert (Hfollow : forall lpk,
             nullish lpk = true ->
             Engine.queryRange next (withPageToken query (Some (LastKeyToken lastKey lpk)))
             = Engine.bulkScan next
                 (withRange (withPageToken query (Some (LastKeyToken lastKey lpk)))
                            {| lower := lastKey; lowerOpen := true;
                               upper := upper (range query);
                               upperOpen := upperOpen (range query) |})).
  { intros lpk Hlpk. rewrite queryRange_bulk.
    - reflexivity.
    - exact Hnz.
    - apply useCursor_after_lastKey, Huse.
    - intros t Ht. simpl in Ht. injection Ht as <-. exact Hlpk. }
  assert (Htoken : resPageToken (resolved (Engine.queryRange next query))
                   = Some (LastKeyToken
                             lastKey
                             (if values query then null else undefined))).
  { rewrite (queryRange_minimal_token query Hnz Huse Hnolpk Hlen Hwant Hmulti Hcase).
    reflexivity. }
  exists (if values query then null else undefined).
  split; [destruct (values query); reflexivity|].
  split; [exact Htoken|].
  apply Hfollow. destruct (values query); reflexivity.
Qed.

(** X14. When a full page of the bulk scan is read by values on an index
    that is not unique, its token holds the indexed key and the primary
    key of the last record, and the follow-up call takes the fallback
    sub-protocol: it reopens a cursor at that key, inclusive, keeping the
    caller's upper bound, and has it seek to the (key, primary key)
    position before collecting. *)
Theorem duplicate_key_follow_up_seeks (query : Query) :
  let idx := tableIndexLookup next (table query) (index query) in
  let primaryKeyIdx := tableIndexLookup next (table query) ":id" in
  let read := getAll next (Engine.bulkQuery query) in
  let lastEntry := nth (limit query - 1) read undefined in
  let lastKey := extractKey idx lastEntry in
  let lastPrimaryKey := extractKey primaryKeyIdx lastEntry in
  limit query <> 0 ->
  Engine.useCursor next query = false ->
  (forall t, pageToken query = Some t -> nullish (tokenLastPrimaryKey t) = true) ->
  limit query <= List.length read ->
  wantPageToken query = true ->
  multiEntry (dbIndex idx) = false ->
  values query = true ->
  isUnique (dbIndex idx) = false ->
  nullish lastPrimaryKey = false ->
  resPageToken (resolved (Engine.queryRange next query))
  = Some (LastKeyToken lastKey lastPrimaryKey)
  /\ let follow :=
       withPageToken query (Some (LastKeyToken lastKey lastPrimaryKey)) in
     let reopened :=
       withRange follow {| lower := lastKey; lowerOpen := false;
                           upper := upper (range query);
                           upperOpen := upperOpen (range query) |} in
     Engine.queryRange next follow = Engine.cursorFallback next follow lastKey
     /\ Engine.openCursor next follow
        = ([CallOpenCursor reopened],
           option_map (fun c => SeekCursor c lastKey lastPrimaryKey)
                      (openCursor next reopened)).
Proof.
  intros idx primaryKeyIdx read lastEntry lastKey lastPrimaryKey
         Hnz Huse Hnolpk Hlen Hwant Hmulti Hvalues Huniq Hlpk.
  destruct (useCursor_false_shape query Huse) as [Hrev Hkl]. fold idx in Hkl.
  split; [|split].
  - rewrite (queryRange_bulk next query Hnz Huse Hnolpk).
    unfold Engine.bulkScan. rewrite resolved_andThen.
    change (resolved (Engine.next_getAll next (Engine.bulkQuery query))) with read.
    destruct (bulkQuery_frame query) as [-> [-> [-> [-> [-> ->]]]]]. fold idx.
    destruct (Nat.ltb_spec (List.length read) (limit query)) as [Hlt|_]; [lia|].
    rewrite Hmulti, Hkl, Hwant, Hvalues, Huniq. reflexivity.
  - apply (@queryRange_fallback _ _ _ next _ lastKey lastPrimaryKey).
    + exact Hnz.
    + apply useCursor_after_lastKey, Huse.
    + reflexivity.
    + exact Hlpk.
  - unfold Engine.openCursor. simpl. rewrite Hrev, Hlpk. simpl.
    unfold Engine.next_openCursor, andThen. simpl. reflexivity.
Qed.

(** *** Paging a multi-valued index *)

(** X15. Paging a multi-valued index is complete when the bulk read and
    the cursor of the layer below agree on the entries of the range: the
    first page is the bulk read, its [offset] token makes the follow-up
    open a cursor on the same range and skip the page already returned,
    and the caller's loop ends with exactly the entries of that cursor, in
    order, as soon as [fuel * limit] exceeds their number. *)
Theorem offset_token_pagination (fuel : nat) (query : Query)
        (c : DBCoreCursor Key Value) :
  let idx := tableIndexLookup next (table query) (index query) in
  limit query <> 0 ->
  wantPageToken query = true ->
  Engine.useCursor next query = false ->
  pageToken query = None ->
  multiEntry (dbIndex idx) = true ->
  getAll next query = firstn (limit query) (map (Engine.entryOf query) (pending c)) ->
  openCursor next (withPageToken query (Some (OffsetToken (limit query)))) = Some c ->
  List.length (pending c) < fuel * limit query ->
  Engine.paginate next fuel query = Some (map (Engine.entryOf query) (pending c)).
Proof.
  intros idx Hnz Hwant Huse Htok Hmulti Hall Hopen Hlen.
  destruct fuel as [|fuel]; [simpl in Hlen; lia|].
  assert (Hnolpk : forall t, pageToken query = Some t ->
                             nullish (tokenLastPrimaryKey t) = true)
    by (intros t Ht; rewrite Htok in Ht; discriminate Ht).
  assert (Hbq : Engine.bulkQuery query = query)
    by (unfold Engine.bulkQuery; rewrite Htok; reflexivity).
  rewrite paginate_step, (queryRange_bulk next query Hnz Huse Hnolpk), Hbq.
  destruct (Nat.lt_ge_cases (List.length (pending c)) (limit query)) as [Hshort|Hfull].
  - destruct (bulkScan_response query) as [Hres [_ [_ [Hnone _]]]].
    rewrite Hnone, Hres, Hall.
    + rewrite firstn_all2 by (rewrite length_map; lia). reflexivity.
    + rewrite Hall, length_firstn, length_map. lia.
  - rewrite bulkScan_offset_token; try assumption.
    + cbn [Engine.withToken resPageToken result].
      set (follow := withPageToken query (Some (OffsetToken (limit query)))).
      rewrite (@paginate_cursor_path fuel follow (OffsetCursor (Some c) (limit query))).
      * simpl. unfold Engine.entryOf at 2. simpl values.
        fold (Engine.entryOf query).
        rewrite Hall, <- skipn_map, firstn_skipn. reflexivity.
      * exact Hnz.
      * exact Hwant.
      * reflexivity.
      * rewrite resolved_openCursor. simpl. fold follow. rewrite <- Hopen.
        reflexivity.
      * reflexivity.
      * simpl. rewrite length_skipn. simpl in Hlen. lia.
    + rewrite Hall, length_firstn, length_map. lia.
    + fold idx. rewrite Hmulti. reflexivity.
Qed.

(** *** Paging with plain [lastKey] tokens *)

Lemma nth_firstn_skipn (A : Type) (l : list A) (j k : nat) (d : A) :
  0 < k -> j + k <= List.length l ->
  nth_error l (j + k - 1) = Some (nth (k - 1) (firstn k (skipn j l)) d).
Proof.
  intros Hk Hlen.
  assert (Hn : nth (k - 1) (firstn k (skipn j l)) d = nth (j + k - 1) l d).
  { rewrite nth_firstn, nth_skipn.
    destruct (Nat.ltb_spec (k - 1) k) as [_|Hge]; [|lia].
    f_equal. lia. }
  rewrite Hn. apply nth_error_nth'. lia.
Qed.

Lemma paginate_bulk_path (query : Query) (entries : list any) :
  let idx := tableIndexLookup next (table query) (index query) in
  let keyOf := fun e => if values query then extractKey idx e else e in
  let tie := if values query then null else undefined in
  limit query <> 0 ->
  wantPageToken query = true ->
  Engine.useCursor next query = false ->
  pageToken query = None ->
  multiEntry (dbIndex idx) = false ->
  (values query = true /\ isUnique (dbIndex idx) = true)
  \/ (values query = false /\ isPrimaryKey (dbIndex idx) = true) ->
  (forall i e,
      nth_error entries i = Some e ->
      getAll next
        (Engine.bulkQuery (withPageToken query (Some (LastKeyToken (keyOf e) tie))))
      = firstn (limit query) (skipn (S i) entries)) ->
  forall fuel j t,
    (forall t', t = Some t' -> exists k, t' = LastKeyToken k tie) ->
    getAll next (Engine.bulkQuery (withPageToken query t))
    = firstn (limit query) (skipn j entries) ->
    List.length entries - j < fuel * limit query ->
    Engine.paginate next fuel (withPageToken query t) = Some (skipn j entries).
Proof.
  intros idx keyOf tie Hnz Hwant Huse Htok Hmulti Hcase Hnext.
  assert (Htie : nullish tie = true) by (subst tie; destruct (values query); reflexivity).
  induction fuel as [|fuel IH]; intros j t Ht Hread Hlen; [simpl in Hlen; lia|].
  set (q := withPageToken query t).
  assert (Huse' : Engine.useCursor next q = false).
  { destruct t as [t'|].
    - destruct (Ht t' eq_refl) as [k ->]. apply useCursor_after_lastKey, Huse.
    - unfold Engine.useCursor in *. simpl. rewrite Htok in Huse. exact Huse. }
  assert (Hnolpk : forall t', pageToken q = Some t' ->
                              nullish (tokenLastPrimaryKey t') = true).
  { intros t' Ht'. simpl in Ht'. destruct (Ht t' Ht') as [k ->]. exact Htie. }
  rewrite paginate_step.
  destruct (Nat.lt_ge_cases (List.length (skipn j entries)) (limit query))
    as [Hshort|Hfull].
  - rewrite (queryRange_bulk next q Hnz Huse' Hnolpk).
    destruct (bulkScan_response (Engine.bulkQuery q)) as [Hres [_ [_ [Hnone _]]]].
    fold q in Hread.
    rewrite Hnone, Hres, Hread.
    + rewrite firstn_all2 by lia. reflexivity.
    + destruct (bulkQuery_frame q) as [_ [_ [_ [-> _]]]].
      rewrite Hread, length_firstn. simpl limit. lia.
  - fold q in Hread.
    rewrite (@queryRange_minimal_token q Hnz Huse' Hnolpk); try assumption;
      [|rewrite Hread, length_firstn; simpl limit; lia].
    cbn [Engine.withToken resPageToken result]. rewrite Hread.
    simpl values. simpl table. simpl index. simpl limit. fold idx.
    change (withPageToken q ?x) with (withPageToken query x).
    rewrite length_skipn in Hfull.
    pose proof (@nth_firstn_skipn _ entries j (limit query) undefined
                  ltac:(lia) ltac:(lia)) as Hlast.
    set (lastEntry := nth (limit query - 1)
                          (firstn (limit query) (skipn j entries)) undefined) in *.
    fold (keyOf lastEntry). fold tie.
    rewrite (IH (S (j + limit query - 1))).
    + replace (S (j + limit query - 1)) with (limit query + j) by lia.
      cbn [option_map].
      rewrite <- skipn_skipn, firstn_skipn. reflexivity.
    + intros t' Ht'. injection Ht' as <-. eexists. reflexivity.
    + apply Hnext. exact Hlast.
    + simpl in Hlen. lia.
Qed.

(** X16. Paging with plain [lastKey] tokens is complete: by values on a
    unique index, or by keys on the primary-key index, when a bulk read
    of the layer below past the key of the entry at position [i] returns
    the entries that follow position [i], the caller's loop ends with
    exactly the entries of the range, in order, none skipped and none
    repeated, as soon as [fuel * limit] exceeds their number. *)
Theorem lastKey_token_pagination (fuel : nat) (query : Query) (entries : list any) :
  let idx := tableIndexLookup next (table query) (index query) in
  let keyOf := fun e => if values query then extractKey idx e else e in
  let tie := if values query then null else undefined in
  limit query <> 0 ->
  wantPageToken query = true ->
  Engine.useCursor next query = false ->
  pageToken query = None ->
  multiEntry (dbIndex idx) = false ->
  (values query = true /\ isUnique (dbIndex idx) = true)
  \/ (values query = false /\ isPrimaryKey (dbIndex idx) = true) ->
  getAll next query = firstn (limit query) entries ->
  (forall i e,
      nth_error entries i = Some e ->
      getAll next
        (Engine.bulkQuery (withPageToken query (Some (LastKeyToken (keyOf e) tie))))
      = firstn (limit query) (skipn (S i) entries)) ->
  List.length entries < fuel * limit query ->
  Engine.paginate next fuel query = Some entries.
Proof.
  intros idx keyOf tie Hnz Hwant Huse Htok Hmulti Hcase Hfirst Hnext Hlen.
  assert (Hq : withPageToken query None = query)
    by (destruct query; simpl in Htok; subst; reflexivity).
  rewrite <- Hq.
  rewrite (@paginate_bulk_path query entries Hnz Hwant Huse Htok Hmulti Hcase Hnext
             fuel 0 None).
  - reflexivity.
  - intros t' Ht'. discriminate Ht'.
  - rewrite Hq. unfold Engine.bulkQuery. rewrite Htok. exact Hfirst.
  - lia.
Qed.

End Pages.


(** ** Pages of the [friends] table *)

Section FriendsPages.

Import Store.
Local Open Scope Z_scope.
Local Open Scope string_scope.

(** Side conditions on a given table and query are settled by running
    the engine. *)
Ltac by_evaluation :=
  first [ vm_compute; reflexivity
        | vm_compute; discriminate
        | vm_compute; lia
        | let t := fresh "t" in
          let Ht := fresh "Ht" in
          intros t Ht; vm_compute in Ht; discriminate Ht ].

Lemma cursor_path_page_witness :
  let query := firstPageDescending "age" true 2 in
  let response := resolved (Engine.queryRange (core sameAge) query) in
  result response = [JsRecord (3, 5); JsRecord (2, 5)]
  /\ Engine.hasToken response = true.
Proof.
  intros query response.
  destruct (@cursor_path_page _ _ _ (core sameAge) query
              (DBCursor {| pending := scan sameAge query; descending := true |}))
    as [Hres [_ [Htok _]]]; try by_evaluation.
  split; [exact Hres|exact Htok].
Defined.

Lemma cursor_path_pagination_witness :
  let query := firstPageDescending "age" true 2 in
  Engine.paginate (core sameAge) 2 query
  = Some [JsRecord (3, 5); JsRecord (2, 5); JsRecord (1, 5)].
Proof.
  intros query.
  apply (@cursor_path_pagination _ _ _ (core sameAge) 2 query);
    by_evaluation.
Defined.

Lemma fallback_page_witness :
  let query := lastPage "age" true 5 (LastKeyToken (JsKey 5) (JsKey 1)) in
  let response := resolved (Engine.queryRange (core twoAges) query) in
  result response = [JsRecord (2, 5)]
  /\ partial response = true
  /\ Engine.hasToken response = true.
Proof.
  intros query response.
  destruct (@fallback_page _ _ _ (core twoAges) query (JsKey 5) (JsKey 1)
              (SeekCursor {| pending := indexEntries twoAges "age";
                             descending := false |} (JsKey 5) (JsKey 1)))
    as [Hres [Hpartial [Htok _]]]; try by_evaluation.
  split; [exact Hres|]. split; [exact Hpartial|exact Htok].
Defined.

Lemma partial_page_carries_token_witness :
  let query := lastPage "age" true 5 (LastKeyToken (JsKey 5) (JsKey 1)) in
  let response := resolved (Engine.queryRange (core twoAges) query) in
  partial response = true
  /\ exists lastKey lastPrimaryKey,
      pageToken query = Some (LastKeyToken lastKey lastPrimaryKey)
      /\ nullish lastPrimaryKey = false
      /\ resPageToken response = Some (LastKeyToken lastKey undefined)
      /\ (List.length (result response) < limit query)%nat.
Proof.
  intros query response. split; [vm_compute; reflexivity|].
  apply (@partial_page_carries_token _ _ _ (core twoAges) query).
  vm_compute. reflexivity.
Defined.

Lemma unwanted_token_only_when_partial_witness :
  let query := lastPage "age" true 1 (LastKeyToken (JsKey 5) (JsKey 1)) in
  let response := resolved (Engine.queryRange (core sameAge) query) in
  wantPageToken query = false
  /\ (resPageToken response = None \/ partial response = true).
Proof.
  intros query response. split; [reflexivity|].
  apply (@unwanted_token_only_when_partial _ _ _ (core sameAge) query).
  reflexivity.
Defined.

Lemma token_kind_follows_strategy_witness :
  let query := firstPage "age" true 1 in
  let t := LastKeyToken (JsKey 5) (JsKey 1) in
  resPageToken (resolved (Engine.queryRange (core sameAge) query)) = Some t
  /\ isCursorToken t = Engine.useCursor (core sameAge) query.
Proof.
  intros query t. split; [vm_compute; reflexivity|].
  apply (@token_kind_follows_strategy _ _ _ (core sameAge) query t);
    by_evaluation.
Defined.

Lemma follow_up_strategy_witness :
  let query := firstPage "tags" true 5 in
  let t := OffsetToken 5 in
  Engine.useCursor (core twelve) query = false
  /\ Engine.useCursor (core twelve) (withPageToken query (Some t)) = true.
Proof.
  intros query t. split; [vm_compute; reflexivity|].
  rewrite (@follow_up_strategy _ _ _ (core twelve) query t);
    by_evaluation.
Defined.

Lemma collected_page_within_limit_witness :
  let query := firstPageDescending "age" true 2 in
  (List.length (result (resolved (Engine.queryRange (core sameAge) query)))
   <= limit query)%nat.
Proof.
  intros query.
  apply (@collected_page_within_limit _ _ _ (core sameAge) query).
  vm_compute. reflexivity.
Defined.

Lemma cursor_strategy_never_bulk_reads_witness :
  let query := firstPage "age" false 5 in
  Engine.useCursor (core twelve) query = true
  /\ existsb (@isGetAll _ _ _) (calls (Engine.queryRange (core twelve) query)) = false.
Proof.
  intros query. split; [vm_compute; reflexivity|].
  apply (@cursor_strategy_never_bulk_reads _ _ _ (core twelve) query).
  vm_compute. reflexivity.
Defined.

Lemma bulk_path_reads_witness :
  let query := firstPage "age" false 10 in
  exists lookups,
    calls (Engine.queryRange (core twelve) query)
    = CallGetAll (Engine.bulkQuery query) :: lookups
    /\ (lookups = []
        \/ (lookups = [CallGet tt "friends" [JsKey 10]]
            /\ (limit query <= List.length (getAll (core twelve) (Engine.bulkQuery query)))%nat
            /\ wantPageToken query = true
            /\ values query = false
            /\ multiEntry (dbIndex (friendsIndexes "age")) = false
            /\ isPrimaryKey (dbIndex (friendsIndexes "age")) = false)).
Proof.
  intros query.
  apply (@bulk_path_reads _ _ _ (core twelve) query); by_evaluation.
Defined.

Lemma lastKey_follow_up_reads_past_last_entry_witness :
  let query := firstPage ":id" false 10 in
  exists lastPrimaryKey,
    nullish lastPrimaryKey = true
    /\ resPageToken (resolved (Engine.queryRange (core twelve) query))
       = Some (LastKeyToken (JsKey 10) lastPrimaryKey)
    /\ let follow := withPageToken query (Some (LastKeyToken (JsKey 10) lastPrimaryKey)) in
       Engine.queryRange (core twelve) follow
       = Engine.bulkScan (core twelve)
           (withRange follow {| lower := JsKey 10; lowerOpen := true;
                                upper := undefined; upperOpen := false |}).
Proof.
  intros query.
  apply (@lastKey_follow_up_reads_past_last_entry _ _ _ (core twelve) query);
    by_evaluation.
Defined.

Lemma duplicate_key_follow_up_seeks_witness :
  let query := firstPage "age" true 1 in
  let follow := withPageToken query (Some (LastKeyToken (JsKey 5) (JsKey 1))) in
  resPageToken (resolved (Engine.queryRange (core sameAge) query))
  = Some (LastKeyToken (JsKey 5) (JsKey 1))
  /\ Engine.queryRange (core sameAge) follow
     = Engine.cursorFallback (core sameAge) follow (JsKey 5).
Proof.
  intros query follow.
  destruct (@duplicate_key_follow_up_seeks _ _ _ (core sameAge) query)
    as [Htok [Hfallback _]]; try by_evaluation.
  split; [exact Htok|exact Hfallback].
Defined.

Lemma offset_token_pagination_witness :
  let query := firstPage "tags" true 5 in
  Engine.paginate (core twelve) 3 query = Some (fullScan twelve query).
Proof.
  intros query.
  apply (@offset_token_pagination _ _ _ (core twelve) 3 query
           {| pending := scan twelve query; descending := false |});
    by_evaluation.
Defined.

Lemma lastKey_token_pagination_witness :
  let query := firstPage ":id" false 5 in
  Engine.paginate (core twelve) 3 query = Some (keysFrom 1 12).
Proof.
  intros query.
  apply (@lastKey_token_pagination _ _ _ (core twelve) 3 query (keysFrom 1 12));
    try by_evaluation.
  intros i e H. unfold keysFrom in H. simpl in H.
  do 12 (destruct i as [|i];
         [injection H as <-; vm_compute; reflexivity|]).
  destruct i; discriminate H.
Defined.

End FriendsPages.
